(** * XLA:CPU function runtime: buffer descriptors and host kernel launch

    A shallow embedding of
      - [xla::cpu_function_runtime::BufferInfo]
        (tensorflow/compiler/xla/cpu_function_runtime.h), and
      - [xla::cpu::Kernel::Launch] with [KernelParallelTask]
        (xla/backends/cpu/runtime/kernel.cc).

    Unsigned 64-bit integers are values of [Z] in the range [0, 2^64) with the
    wrap-around of every C++ operation written out; [int64_t] is a [Z] in
    [-2^63, 2^63). *)

From Stdlib Require Import ZArith List String Ascii Bool Lia.
From Stdlib Require Import DecimalString.
Import ListNotations.

Local Open Scope Z_scope.

(** ** Machine integers *)

Definition uint64_modulus : Z := 2 ^ 64.
Definition uint62_modulus : Z := 2 ^ 62.

Definition is_uint64 (z : Z) : Prop := 0 <= z < uint64_modulus.
Definition is_int64 (z : Z) : Prop := - 2 ^ 63 <= z < 2 ^ 63.
Definition is_uint62 (z : Z) : Prop := 0 <= z < uint62_modulus.

(** Conversion of any integer to [uint64_t]. *)
Definition to_uint64 (z : Z) : Z := z mod uint64_modulus.

(** Conversion of any integer to [int64_t] (two's complement). *)
Definition to_int64 (z : Z) : Z :=
  (z + 2 ^ 63) mod uint64_modulus - 2 ^ 63.

(** [a << n] and [a >> n] on [uint64_t]. *)
Definition shl64 (a n : Z) : Z := to_uint64 (Z.shiftl a n).
Definition shr64 (a n : Z) : Z := Z.shiftr a n.
(** [a * b] on [uint64_t]. *)
Definition mul64 (a b : Z) : Z := to_uint64 (a * b).

(** ** BufferInfo *)

Module BufferInfo.

(** [enum class Kind : uint64_t]. *)
Inductive Kind : Type :=
| kConstant
| kTempBuffer
| kEntryParameter
| kOnStackBuffer.

Definition Kind_eqb (a b : Kind) : bool :=
  match a, b with
  | kConstant, kConstant
  | kTempBuffer, kTempBuffer
  | kEntryParameter, kEntryParameter
  | kOnStackBuffer, kOnStackBuffer => true
  | _, _ => false
  end.

(** [static_cast<uint64_t>(kind)]. *)
Definition Kind_to_Z (k : Kind) : Z :=
  match k with
  | kConstant => 0
  | kTempBuffer => 1
  | kEntryParameter => 2
  | kOnStackBuffer => 3
  end.

(** [static_cast<Kind>(v)] followed by the store into the 2-bit field
    [Kind kind_ : 2]: only the low two bits of [v] are kept, and they are
    read back unsigned. *)
Definition Kind_of_Z (v : Z) : Kind :=
  match Z.land v 3 with
  | 0 => kConstant
  | 1 => kTempBuffer
  | 2 => kEntryParameter
  | _ => kOnStackBuffer
  end.

(** The three members: [Kind kind_ : 2; uint64_t size_ : 62;
    int64_t entry_param_number_]. *)
Record t : Type := Build {
  kind_ : Kind;
  size_ : Z;
  entry_param_number_ : Z
}.

(** Values the members can hold. *)
Definition wf (b : t) : Prop :=
  is_uint62 (size_ b) /\ is_int64 (entry_param_number_ b).

(** The private constructor
    [BufferInfo(Kind kind, uint64_t size, uint64_t entry_param_number)]:
    [size] is stored into a 62-bit field, [entry_param_number] into an
    [int64_t]. *)
Definition make (kind : Kind) (size entry_param_number : Z) : t :=
  {| kind_ := kind;
     size_ := size mod uint62_modulus;
     entry_param_number_ := to_int64 entry_param_number |}.

Definition kind (b : t) : Kind := kind_ b.
Definition size (b : t) : Z := size_ b.

Definition is_constant (b : t) : bool := Kind_eqb (kind b) kConstant.
Definition is_entry_parameter (b : t) : bool :=
  Kind_eqb (kind b) kEntryParameter.
Definition is_temp_buffer (b : t) : bool := Kind_eqb (kind b) kTempBuffer.
Definition is_on_stack_buffer (b : t) : bool :=
  Kind_eqb (kind b) kOnStackBuffer.

(** [entry_parameter_number()]: [None] is the failed [assert]. *)
Definition entry_parameter_number (b : t) : option Z :=
  if is_entry_parameter b then Some (to_uint64 (entry_param_number_ b))
  else None.

Definition Pack (kind : Kind) (size : Z) : Z :=
  Z.lor (shl64 size 2) (Kind_to_Z kind).

Definition Unpack (packed : Z) : Kind * Z :=
  let size := shr64 packed 2 in
  let kind := Kind_of_Z (shr64 (shl64 packed 62) 62) in
  (kind, size).

(** [Encode()]. *)
Definition Encode (b : t) : Z * Z :=
  let upper := Pack (kind b) (size_ b) in
  let lower := to_uint64 (entry_param_number_ b) in
  (upper, lower).

(** The decoding constructor [BufferInfo(std::pair<uint64_t, uint64_t>)]. *)
Definition decode (encoding : Z * Z) : t :=
  let '(kind, size) := Unpack (fst encoding) in
  {| kind_ := kind;
     size_ := size mod uint62_modulus;
     entry_param_number_ := to_int64 (snd encoding) |}.

(** [operator==]; [None] is a failed [assert] inside
    [entry_parameter_number()]. *)
Definition eqb (a b : t) : option bool :=
  if negb (Kind_eqb (kind a) (kind b)) || negb (size a =? size b)
  then Some false
  else if negb (is_entry_parameter a) then Some true
  else match entry_parameter_number a, entry_parameter_number b with
       | Some m, Some n => Some (m =? n)
       | _, _ => None
       end.

(** Factory methods.  The literal [-1] passed for [entry_param_number] is
    converted to [uint64_t] at the call. *)
Definition MakeTempBuffer (size : Z) : t :=
  make kTempBuffer size (to_uint64 (-1)).
Definition MakeConstant (size : Z) : t :=
  make kConstant size (to_uint64 (-1)).
Definition MakeEntryParameter (size param_number : Z) : t :=
  make kEntryParameter size param_number.
Definition MakeOnStackBuffer (size : Z) : t :=
  make kOnStackBuffer size (to_uint64 (-1)).

(** Descriptors obtained from one of the four factory methods, called with
    [uint64_t] arguments. *)
Inductive from_factory : t -> Prop :=
| ff_temp size :
    is_uint64 size -> from_factory (MakeTempBuffer size)
| ff_constant size :
    is_uint64 size -> from_factory (MakeConstant size)
| ff_entry size param_number :
    is_uint64 size -> is_uint64 param_number ->
    from_factory (MakeEntryParameter size param_number)
| ff_on_stack size :
    is_uint64 size -> from_factory (MakeOnStackBuffer size).

End BufferInfo.

(** ** Host kernel launch *)

(** [absl::Status], as far as the launch code builds it. *)
Inductive absl_Status : Type :=
| OkStatus
| InternalError (message : string).

Definition ok (s : absl_Status) : bool :=
  match s with OkStatus => true | InternalError _ => false end.

(** Modelled from the spec: the C API structures of kernel_c_api.h, which is
    not among the sources.  A call frame carries the grid dimensions, the
    current coordinate, the argument count and the argument array; an argument
    is a (pointer, size) pair; pointers are addresses. *)
Record XLA_CPU_KernelThreadDim : Type := ThreadDim {
  dim_x : Z; dim_y : Z; dim_z : Z
}.

Record XLA_CPU_KernelThread : Type := KernelThread {
  thread_x : Z; thread_y : Z; thread_z : Z
}.

Record XLA_CPU_KernelArg : Type := KernelArg {
  arg_data : Z; arg_size : Z
}.

Record XLA_CPU_KernelCallFrame : Type := CallFrame {
  frame_thread_dims : XLA_CPU_KernelThreadDim;
  frame_thread : XLA_CPU_KernelThread;
  frame_num_args : Z;
  frame_args : list XLA_CPU_KernelArg
}.

(** An opaque error object: only null or non-null is ever looked at. *)
Definition XLA_CPU_KernelError : Type := Z.

(** The members of [Kernel::ThreadDim] are three [uint64_t]. *)
Definition valid_dims (d : XLA_CPU_KernelThreadDim) : Prop :=
  is_uint64 (dim_x d) /\ is_uint64 (dim_y d) /\ is_uint64 (dim_z d).

(** [size_t num_tasks = thread_dims.x * thread_dims.y * thread_dims.z]. *)
Definition num_tasks (d : XLA_CPU_KernelThreadDim) : Z :=
  mul64 (mul64 (dim_x d) (dim_y d)) (dim_z d).

(** Decimal rendering of an unsigned integer, as [%d] prints it. *)
Definition decimal (z : Z) : string :=
  NilZero.string_of_uint (N.to_uint (Z.to_N z)).

(** The message of [Internal("Failed to call host kernel: x=%d, y=%d, z=%d",
    ...)]. *)
Definition task_failure_message (t : XLA_CPU_KernelThread) : string :=
  ("Failed to call host kernel: x=" ++ decimal (thread_x t)
   ++ ", y=" ++ decimal (thread_y t)
   ++ ", z=" ++ decimal (thread_z t))%string.

(** [needle] occurs in [hay]. *)
Fixpoint contains (needle hay : string) : bool :=
  String.prefix needle hay
  || match hay with
     | EmptyString => false
     | String _ rest => contains needle rest
     end.

(** A message includes a coordinate when the decimal numerals of its three
    components all occur in it. *)
Definition includes_coordinate (message : string)
    (t : XLA_CPU_KernelThread) : bool :=
  contains (decimal (thread_x t)) message
  && contains (decimal (thread_y t)) message
  && contains (decimal (thread_z t)) message.

Definition status_includes_coordinate (s : absl_Status)
    (t : XLA_CPU_KernelThread) : bool :=
  match s with
  | OkStatus => false
  | InternalError message => includes_coordinate message t
  end.

(** Modelled from the spec: [Kernel::DeviceMemoryBase] (device_memory.h is not
    among the sources), a caller-owned memory region given by its address
    [opaque()] and its [size()]. *)
Record DeviceMemoryBase : Type := DeviceMemory {
  opaque : Z; memory_size : Z
}.

(** [v[i] = f(v[i])] on a vector; [None] is an index out of bounds. *)
Fixpoint write_nth {A : Type} (i : nat) (f : A -> A) (v : list A)
    : option (list A) :=
  match v, i with
  | [], _ => None
  | a :: rest, O => Some (f a :: rest)
  | a :: rest, S i' => option_map (cons a) (write_nth i' f rest)
  end.

(** The loop of [ConvertBuffersToKernelArgs], from the current value of [i]:
    [args[i].data = buffers[i].opaque(); args[i].size = buffers[i].size()].
    [None] is an access out of bounds; [fuel] bounds the iterations. *)
Fixpoint convert_loop (fuel : nat) (i : Z) (buffers : list DeviceMemoryBase)
    (args : list XLA_CPU_KernelArg) : option (list XLA_CPU_KernelArg) :=
  match fuel with
  | O => Some args
  | S fuel' =>
      if i <? Z.of_nat (List.length buffers) then
        match nth_error buffers (Z.to_nat i) with
        | None => None
        | Some b =>
            match write_nth (Z.to_nat i)
                    (fun a => {| arg_data := opaque b;
                                 arg_size := arg_size a |}) args with
            | None => None
            | Some args1 =>
                match write_nth (Z.to_nat i)
                        (fun a => {| arg_data := arg_data a;
                                     arg_size := memory_size b |}) args1 with
                | None => None
                | Some args2 => convert_loop fuel' (i + 1) buffers args2
                end
            end
        end
      else Some args
  end.

(** [ConvertBuffersToKernelArgs(buffers)]: a vector of [buffers.size()]
    value-initialized arguments, then the loop. *)
Definition ConvertBuffersToKernelArgs (buffers : list DeviceMemoryBase)
    : option (list XLA_CPU_KernelArg) :=
  convert_loop (List.length buffers) 0 buffers
    (repeat {| arg_data := 0; arg_size := 0 |} (List.length buffers)).

(** The argument a buffer is converted to. *)
Definition kernel_arg_of (b : DeviceMemoryBase) : XLA_CPU_KernelArg :=
  {| arg_data := opaque b; arg_size := memory_size b |}.

Section Launch.

(** The memory a native kernel reads and writes. *)
Variable Mem : Type.

(** A native kernel: called on a call frame, it updates the memory and
    returns null ([None]) or an error object. *)
Definition XLA_CPU_Kernel : Type :=
  XLA_CPU_KernelCallFrame -> Mem -> option XLA_CPU_KernelError * Mem.

(** What a launch does that an observer can see, in order. *)
Inductive Event : Type :=
| EvKernel (frame : XLA_CPU_KernelCallFrame)
| EvParallelize (num_workers num_tasks : Z).

Record World : Type := MkWorld {
  mem : Mem;
  trace : list Event
}.

(** One call of the native kernel on a call frame, recorded in the trace. *)
Definition invoke (kernel : XLA_CPU_Kernel)
    (call_frame : XLA_CPU_KernelCallFrame) (w : World)
    : option XLA_CPU_KernelError * World :=
  let (error, m) := kernel call_frame (mem w) in
  (error, {| mem := m; trace := trace w ++ [EvKernel call_frame] |}).

(** *** KernelParallelTask *)

Record KernelParallelTask : Type := MkTask {
  kernel_ : XLA_CPU_Kernel;
  thread_dims_ : XLA_CPU_KernelThreadDim;
  args_ : list XLA_CPU_KernelArg
}.

(** [Delinearize]; [None] is a division by zero. *)
Definition Delinearize (thread_dims : XLA_CPU_KernelThreadDim)
    (task_index : Z) : option XLA_CPU_KernelThread :=
  let stride_z := mul64 (dim_y thread_dims) (dim_x thread_dims) in
  let stride_y := dim_x thread_dims in
  if stride_z =? 0 then None else
  let z := task_index / stride_z in
  let task_index := task_index mod stride_z in
  if stride_y =? 0 then None else
  let y := task_index / stride_y in
  let task_index := task_index mod stride_y in
  let x := task_index in
  Some {| thread_x := x; thread_y := y; thread_z := z |}.

(** [KernelParallelTask::operator()]; [None] is a failed [DCHECK_LT] or a
    division by zero. *)
Definition run_task (task : KernelParallelTask) (task_index : Z)
    (w : World) : option (absl_Status * World) :=
  let n := num_tasks (thread_dims_ task) in
  if negb (task_index <? n) then None else
  match Delinearize (thread_dims_ task) task_index with
  | None => None
  | Some kernel_thread =>
      let call_frame :=
        {| frame_thread_dims := thread_dims_ task;
           frame_thread := kernel_thread;
           frame_num_args := Z.of_nat (List.length (args_ task));
           frame_args := args_ task |} in
      let (error, w') := invoke (kernel_ task) call_frame w in
      match error with
      | None => Some (OkStatus, w')
      | Some _ =>
          Some (InternalError (task_failure_message kernel_thread), w')
      end
  end.

(** *** Synchronous launch *)

(** [for (uint64_t i = ...; i < bound; ++i) body] from the current value of
    [i]; the body either falls through ([None]) or returns from the enclosing
    function ([Some status]).  [fuel] bounds the number of iterations. *)
Fixpoint for_loop (fuel : nat) (i bound : Z)
    (body : Z -> World -> option absl_Status * World) (w : World)
    : option absl_Status * World :=
  match fuel with
  | O => (None, w)
  | S fuel' =>
      if i <? bound then
        match body i w with
        | (Some status, w') => (Some status, w')
        | (None, w') => for_loop fuel' (i + 1) bound body w'
        end
      else (None, w)
  end.

(** [for (uint64_t i = 0; i < bound; ++i) body]: [bound] iterations are all
    the loop can make, so that much fuel never runs out before the test
    fails. *)
Definition for_below (bound : Z)
    (body : Z -> World -> option absl_Status * World)
    : World -> option absl_Status * World :=
  for_loop (Z.to_nat bound) 0 bound body.

Definition make_call_frame (thread_dims : XLA_CPU_KernelThreadDim)
    (args : list XLA_CPU_KernelArg) (t : XLA_CPU_KernelThread)
    : XLA_CPU_KernelCallFrame :=
  {| frame_thread_dims := thread_dims;
     frame_thread := t;
     frame_num_args := Z.of_nat (List.length args);
     frame_args := args |}.

(** [Kernel::Launch(thread_dims, args)]. *)
Definition Launch (kernel : XLA_CPU_Kernel)
    (thread_dims : XLA_CPU_KernelThreadDim)
    (args : list XLA_CPU_KernelArg) (w : World) : absl_Status * World :=
  let kernel_thread_dims :=
    {| dim_x := dim_x thread_dims;
       dim_y := dim_y thread_dims;
       dim_z := dim_z thread_dims |} in
  let loops :=
    for_below (dim_z thread_dims) (fun z =>
      for_below (dim_y thread_dims) (fun y =>
        for_below (dim_x thread_dims) (fun x w =>
          let kernel_thread :=
            {| thread_x := x; thread_y := y; thread_z := z |} in
          let call_frame :=
            {| frame_thread_dims := kernel_thread_dims;
               frame_thread := kernel_thread;
               frame_num_args := Z.of_nat (List.length args);
               frame_args := args |} in
          let (error, w') := invoke kernel call_frame w in
          match error with
          | Some _ =>
              (Some (InternalError "Failed to call host kernel"), w')
          | None => (None, w')
          end))) in
  match loops w with
  | (Some status, w') => (status, w')
  | (None, w') => (OkStatus, w')
  end.

(** *** Asynchronous launch *)

(** [Eigen::ThreadPoolDevice], as far as the launch looks at it: the thread
    count that [numThreadsInPool()] returns. *)
Record ThreadPoolDevice : Type := MkDevice {
  numThreadsInPool : Z
}.

(** What [Worker::Parallelize] hands back. *)
Variable PoolEvent : Type.

(** Modelled from the spec: the completion signal
    [tsl::AsyncValueRef<LaunchEvent>] (async_value_ref.h is not among the
    sources).  [OkLaunchEvent()] is an available value,
    [MakeErrorAsyncValueRef] one resolved to a failure; the third case is
    whatever the worker pool returned. *)
Inductive AsyncValueRef : Type :=
| OkLaunchEvent
| MakeErrorAsyncValueRef (status : absl_Status)
| FromPool (event : PoolEvent).

(** The signals that are resolved by construction. *)
Definition resolved (r : AsyncValueRef) : bool :=
  match r with
  | OkLaunchEvent | MakeErrorAsyncValueRef _ => true
  | FromPool _ => false
  end.

(** Modelled from the spec: [Worker::Parallelize] (work_queue.h is not among
    the sources), a black box that acts on the kernel's memory and returns a
    completion signal. *)
Variable Worker_Parallelize_body :
  ThreadPoolDevice -> Z -> Z -> KernelParallelTask -> Mem -> PoolEvent * Mem.

(** [Worker::Parallelize(device, num_workers, num_tasks, task)]. *)
Definition Worker_Parallelize (device : ThreadPoolDevice)
    (num_workers n : Z) (task : KernelParallelTask) (w : World)
    : AsyncValueRef * World :=
  let (event, m) :=
    Worker_Parallelize_body device num_workers n task (mem w) in
  (FromPool event,
   {| mem := m; trace := trace w ++ [EvParallelize num_workers n] |}).

(** A call either returns or dies in a fatal [CHECK]. *)
Inductive Outcome (A : Type) : Type :=
| Returned (a : A) (w : World)
| CheckFailed (message : string) (w : World).
Arguments Returned {A} a w.
Arguments CheckFailed {A} message w.

(** [Kernel::Launch(thread_dims, args, device)]. *)
Definition LaunchAsync (kernel : XLA_CPU_Kernel)
    (thread_dims : XLA_CPU_KernelThreadDim)
    (args : list XLA_CPU_KernelArg) (device : ThreadPoolDevice)
    (w : World) : Outcome AsyncValueRef :=
  let n := num_tasks thread_dims in
  if negb (n >? 0)
  then CheckFailed "Number of tasks must be positive" w
  else if n =? 1 then
    let (launched, w') := Launch kernel thread_dims args w in
    Returned (if ok launched then OkLaunchEvent
              else MakeErrorAsyncValueRef launched) w'
  else
    let num_workers :=
      Z.min (Z.min n (to_uint64 (numThreadsInPool device))) 65535 in
    let (r, w') :=
      Worker_Parallelize device num_workers n
        {| kernel_ := kernel; thread_dims_ := thread_dims; args_ := args |}
        w in
    Returned r w'.

(** [Kernel::Launch(thread_dims, buffers)] on device memory. *)
Definition LaunchBuffers (kernel : XLA_CPU_Kernel)
    (thread_dims : XLA_CPU_KernelThreadDim)
    (buffers : list DeviceMemoryBase) (w : World)
    : option (absl_Status * World) :=
  match ConvertBuffersToKernelArgs buffers with
  | None => None
  | Some args => Some (Launch kernel thread_dims args w)
  end.

(** [Kernel::Launch(thread_dims, buffers, device)] on device memory. *)
Definition LaunchAsyncBuffers (kernel : XLA_CPU_Kernel)
    (thread_dims : XLA_CPU_KernelThreadDim)
    (buffers : list DeviceMemoryBase) (device : ThreadPoolDevice)
    (w : World) : option (Outcome AsyncValueRef) :=
  match ConvertBuffersToKernelArgs buffers with
  | None => None
  | Some args => Some (LaunchAsync kernel thread_dims args device w)
  end.

(** *** The launch as the specification words it *)

(** The grid coordinates, [z] outermost, then [y], then [x] fastest. *)
Definition indices (bound : Z) : list Z :=
  map Z.of_nat (seq 0 (Z.to_nat bound)).

Definition grid_order (d : XLA_CPU_KernelThreadDim)
    : list XLA_CPU_KernelThread :=
  flat_map (fun z =>
    flat_map (fun y =>
      map (fun x => {| thread_x := x; thread_y := y; thread_z := z |})
          (indices (dim_x d)))
      (indices (dim_y d)))
    (indices (dim_z d)).

(** Invoke the kernel on each frame in turn; stop at the first non-null
    error with a failure; succeed when the frames are exhausted. *)
Fixpoint invoke_in_order (kernel : XLA_CPU_Kernel)
    (frames : list XLA_CPU_KernelCallFrame) (w : World)
    : absl_Status * World :=
  match frames with
  | [] => (OkStatus, w)
  | frame :: rest =>
      match invoke kernel frame w with
      | (Some _, w') => (InternalError "Failed to call host kernel", w')
      | (None, w') => invoke_in_order kernel rest w'
      end
  end.

(** The frames invoked before and including the first failing one, run
    from memory [m]. *)
Fixpoint invoked_frames (kernel : XLA_CPU_Kernel)
    (frames : list XLA_CPU_KernelCallFrame) (m : Mem)
    : list XLA_CPU_KernelCallFrame :=
  match frames with
  | [] => []
  | frame :: rest =>
      match kernel frame m with
      | (Some _, _) => [frame]
      | (None, m') => frame :: invoked_frames kernel rest m'
      end
  end.

(** The first frame on which the kernel returns a non-null error. *)
Fixpoint first_failure (kernel : XLA_CPU_Kernel)
    (frames : list XLA_CPU_KernelCallFrame) (m : Mem)
    : option XLA_CPU_KernelCallFrame :=
  match frames with
  | [] => None
  | frame :: rest =>
      match kernel frame m with
      | (Some _, _) => Some frame
      | (None, m') => first_failure kernel rest m'
      end
  end.

(** A loop body run over a list of indices, left at the first
    [return]. *)
Fixpoint until_return {A : Type}
    (body : A -> World -> option absl_Status * World) (l : list A)
    (w : World) : option absl_Status * World :=
  match l with
  | [] => (None, w)
  | a :: rest =>
      match body a w with
      | (Some status, w') => (Some status, w')
      | (None, w') => until_return body rest w'
      end
  end.

(** The innermost loop body of the synchronous launch: one call, and a
    [return] of the failure when the error is non-null. *)
Definition invoke_or_return (kernel : XLA_CPU_Kernel)
    (frame : XLA_CPU_KernelCallFrame) (w : World)
    : option absl_Status * World :=
  let (error, w') := invoke kernel frame w in
  match error with
  | Some _ => (Some (InternalError "Failed to call host kernel"), w')
  | None => (None, w')
  end.

(** What a function returns after its loops: the status of the [return]
    taken inside them, or the final [return absl::OkStatus()]. *)
Definition or_ok (r : option absl_Status * World) : absl_Status * World :=
  match r with
  | (Some status, w') => (status, w')
  | (None, w') => (OkStatus, w')
  end.

(** The frames of a launch, in grid order. *)
Definition launch_frames (d : XLA_CPU_KernelThreadDim)
    (args : list XLA_CPU_KernelArg) : list XLA_CPU_KernelCallFrame :=
  map (make_call_frame d args) (grid_order d).

(** The failure-surfacing property as the specification words it for the
    synchronous path: when the kernel fails on a frame, the status
    returned includes that frame's coordinate. *)
Definition sync_failure_reports_coordinate (kernel : XLA_CPU_Kernel)
    (d : XLA_CPU_KernelThreadDim) (args : list XLA_CPU_KernelArg)
    (w : World) : Prop :=
  forall frame,
    first_failure kernel (launch_frames d args) (mem w) = Some frame ->
    status_includes_coordinate (fst (Launch kernel d args w))
                               (frame_thread frame) = true.

End Launch.

Arguments MkWorld {Mem} mem trace.
Arguments mem {Mem} w.
Arguments trace {Mem} w.
Arguments invoke {Mem} kernel call_frame w.
Arguments run_task {Mem} task task_index w.
Arguments Launch {Mem} kernel thread_dims args w.
Arguments OkLaunchEvent {PoolEvent}.
Arguments MakeErrorAsyncValueRef {PoolEvent} status.
Arguments FromPool {PoolEvent} event.
Arguments resolved {PoolEvent} r.
Arguments Returned {Mem A} a w.
Arguments CheckFailed {Mem A} message w.
Arguments LaunchAsync {Mem PoolEvent} Worker_Parallelize_body kernel thread_dims args device w.
Arguments LaunchBuffers {Mem} kernel thread_dims buffers w.
Arguments LaunchAsyncBuffers {Mem PoolEvent} Worker_Parallelize_body kernel thread_dims buffers device w.
Arguments invoke_in_order {Mem} kernel frames w.
Arguments invoked_frames {Mem} kernel frames m.
Arguments first_failure {Mem} kernel frames m.
Arguments until_return {Mem A} body l w.
Arguments invoke_or_return {Mem} kernel frame w.
Arguments or_ok {Mem} r.
Arguments sync_failure_reports_coordinate {Mem} kernel d args w.

(** A kernel without memory that fails at exactly one coordinate. *)
Definition failing_at (t : XLA_CPU_KernelThread) : XLA_CPU_Kernel unit :=
  fun frame m =>
    let c := frame_thread frame in
    if (thread_x c =? thread_x t) && (thread_y c =? thread_y t)
       && (thread_z c =? thread_z t)
    then (Some 1, m) else (None, m).

(** A kernel without memory that never fails. *)
Definition never_failing : XLA_CPU_Kernel unit := fun _ m => (None, m).

Definition empty_world : World unit := {| mem := tt; trace := [] |}.

(** A worker pool that does nothing, for concrete launches. *)
Definition inert_pool (device : ThreadPoolDevice) (num_workers n : Z)
    (task : KernelParallelTask unit) (m : unit) : unit * unit := (tt, m).

(** The characters a decimal numeral is made of. *)
Definition digits : list ascii := list_ascii_of_string "0123456789".

(** Ranges of machine integers as inequalities between numerals. *)
Ltac unfold_ranges :=
  unfold is_uint64, is_uint62, is_int64, to_uint64, to_int64 in *;
  change uint64_modulus with 18446744073709551616 in *;
  change uint62_modulus with 4611686018427387904 in *;
  change (2 ^ 63) with 9223372036854775808 in *.

(** * Properties *)

(** ** Machine integer facts *)

Lemma uint64_modulus_eq : uint64_modulus = 18446744073709551616.
Proof. reflexivity. Qed.

Lemma uint62_modulus_eq : uint62_modulus = 4611686018427387904.
Proof. reflexivity. Qed.

Lemma to_uint64_small z : is_uint64 z -> to_uint64 z = z.
Proof. unfold_ranges. intros H. apply Z.mod_small; lia. Qed.

Lemma to_uint64_range z : is_uint64 (to_uint64 z).
Proof. unfold_ranges. apply Z.mod_pos_bound; lia. Qed.

Lemma to_int64_range z : is_int64 (to_int64 z).
Proof.
  unfold_ranges.
  pose proof (Z.mod_pos_bound (z + 9223372036854775808)
                18446744073709551616 ltac:(lia)).
  lia.
Qed.

(** [int64_t -> uint64_t -> int64_t] gives the value back. *)
Lemma to_int64_to_uint64 z : is_int64 z -> to_int64 (to_uint64 z) = z.
Proof.
  unfold_ranges. intros H.
  rewrite Zplus_mod_idemp_l.
  rewrite Z.mod_small; lia.
Qed.

(** [uint64_t -> int64_t -> uint64_t] gives the value back. *)
Lemma to_uint64_to_int64 z : is_uint64 z -> to_uint64 (to_int64 z) = z.
Proof.
  unfold_ranges. intros H.
  rewrite Zminus_mod_idemp_l.
  replace (z + 9223372036854775808 - 9223372036854775808) with z by lia.
  apply Z.mod_small; lia.
Qed.

Lemma to_uint64_inj_int64 a b :
  is_int64 a -> is_int64 b -> to_uint64 a = to_uint64 b -> a = b.
Proof.
  intros Ha Hb E.
  rewrite <- (to_int64_to_uint64 a Ha), <- (to_int64_to_uint64 b Hb).
  now rewrite E.
Qed.

(** ** Shifts and masks on one word *)

Lemma shl64_2_small s : is_uint62 s -> shl64 s 2 = 4 * s.
Proof.
  intros H. unfold shl64. rewrite Z.shiftl_mul_pow2 by lia.
  change (2 ^ 2) with 4. unfold_ranges.
  rewrite Z.mod_small; lia.
Qed.

(** The double shift [(packed << 62) >> 62] keeps the low two bits. *)
Lemma double_shift_low_bits w : shr64 (shl64 w 62) 62 = w mod 4.
Proof.
  unfold shr64, shl64, to_uint64.
  rewrite Z.shiftl_mul_pow2, Z.shiftr_div_pow2 by lia.
  rewrite uint64_modulus_eq.
  change 18446744073709551616 with (4 * 2 ^ 62).
  rewrite Z.mul_mod_distr_r by lia.
  apply Z.div_mul; lia.
Qed.

Lemma lor_low_bits s k : 0 <= k < 4 -> Z.lor (4 * s) k = 4 * s + k.
Proof.
  intros Hk.
  assert (E : Z.land (4 * s) k = 0).
  { apply Z.bits_inj'; intros n Hn.
    rewrite Z.land_spec, Z.bits_0.
    destruct (Z.ltb_spec n 2).
    - replace (4 * s) with (s * 2 ^ 2) by lia.
      rewrite Z.mul_pow2_bits_low by lia. reflexivity.
    - rewrite (Z.bits_above_log2 k n).
      + apply andb_false_r.
      + lia.
      + destruct (Z.eq_dec k 0) as [->|]; [simpl; lia|].
        apply Z.log2_lt_pow2; [lia|].
        apply Z.lt_le_trans with (2 ^ 2); [simpl; lia|].
        apply Z.pow_le_mono_r; lia. }
  rewrite <- Z.lxor_lor by exact E.
  symmetry. apply Z.add_nocarry_lxor. exact E.
Qed.

Lemma land_3_mod w : Z.land w 3 = w mod 4.
Proof. change 3 with (Z.ones 2). rewrite Z.land_ones by lia. reflexivity. Qed.

(** ** Buffer descriptors *)

Module BufferInfoFacts.
Import BufferInfo.

Lemma Kind_to_Z_range k : 0 <= Kind_to_Z k < 4.
Proof. destruct k; simpl; lia. Qed.

Lemma Kind_of_to_Z k : Kind_of_Z (Kind_to_Z k) = k.
Proof. destruct k; reflexivity. Qed.

Lemma Kind_to_of_Z v : Kind_to_Z (Kind_of_Z v) = v mod 4.
Proof.
  unfold Kind_of_Z. rewrite land_3_mod.
  pose proof (Z.mod_pos_bound v 4 ltac:(lia)) as H.
  destruct (v mod 4) as [|p|p] eqn:E; try lia; try reflexivity.
  destruct p as [[|[]|]|[|[]|]|]; simpl; try reflexivity; lia.
Qed.

Lemma Kind_eqb_eq a b : Kind_eqb a b = true <-> a = b.
Proof. destruct a, b; simpl; split; congruence. Qed.

Lemma Kind_eqb_refl a : Kind_eqb a a = true.
Proof. now apply Kind_eqb_eq. Qed.

(** The packed word as plain arithmetic. *)
Lemma Pack_arith k s : is_uint62 s -> Pack k s = 4 * s + Kind_to_Z k.
Proof.
  intros Hs. unfold Pack. rewrite shl64_2_small by exact Hs.
  apply lor_low_bits, Kind_to_Z_range.
Qed.

Lemma Pack_range k s : is_uint62 s -> is_uint64 (Pack k s).
Proof.
  intros Hs. rewrite Pack_arith by exact Hs.
  pose proof (Kind_to_Z_range k). unfold_ranges. lia.
Qed.

(** Unpacking as plain arithmetic. *)
Lemma Unpack_arith w : Unpack w = (Kind_of_Z (w mod 4), w / 4).
Proof.
  unfold Unpack. rewrite double_shift_low_bits.
  unfold shr64. rewrite Z.shiftr_div_pow2 by lia. reflexivity.
Qed.

Lemma Unpack_Pack k s : is_uint62 s -> Unpack (Pack k s) = (k, s).
Proof.
  intros Hs. rewrite Unpack_arith, Pack_arith by exact Hs.
  pose proof (Kind_to_Z_range k) as Hk.
  replace (4 * s + Kind_to_Z k) with (Kind_to_Z k + s * 4) by lia.
  rewrite Z.mod_add, Z.div_add by lia.
  rewrite Z.mod_small, Z.div_small by lia.
  rewrite Kind_of_to_Z. reflexivity.
Qed.

Lemma Pack_Unpack w :
  is_uint64 w -> Pack (fst (Unpack w)) (snd (Unpack w)) = w.
Proof.
  intros Hw. rewrite Unpack_arith. simpl.
  assert (Hq : is_uint62 (w / 4)).
  { unfold_ranges. split.
    - apply Z.div_pos; lia.
    - apply Z.div_lt_upper_bound; lia. }
  rewrite Pack_arith by exact Hq.
  rewrite Kind_to_of_Z, Zmod_mod.
  pose proof (Z.div_mod w 4 ltac:(lia)). lia.
Qed.

Lemma Unpack_size_range w : is_uint64 w -> is_uint62 (snd (Unpack w)).
Proof.
  intros Hw. rewrite Unpack_arith. simpl. unfold_ranges. split.
  - apply Z.div_pos; lia.
  - apply Z.div_lt_upper_bound; lia.
Qed.

Lemma make_wf k s p : wf (make k s p).
Proof.
  split; simpl.
  - unfold is_uint62. apply Z.mod_pos_bound. reflexivity.
  - apply to_int64_range.
Qed.

Lemma from_factory_wf d : from_factory d -> wf d.
Proof. intros []; apply make_wf. Qed.

(** Decoding an encoding gives the descriptor back, whatever its kind. *)
Lemma decode_Encode d : wf d -> decode (Encode d) = d.
Proof.
  destruct d as [k s p]. intros [Hs Hp]; simpl in *.
  unfold decode, Encode, kind.
  cbn [fst snd kind_ size_ entry_param_number_].
  rewrite Unpack_Pack by exact Hs.
  rewrite to_int64_to_uint64 by exact Hp.
  f_equal. apply Z.mod_small. exact Hs.
Qed.

(** [operator==] never trips the assertion, and a descriptor equals
    itself. *)
Lemma eqb_refl d : eqb d d = Some true.
Proof.
  unfold eqb, entry_parameter_number, size.
  rewrite Kind_eqb_refl, Z.eqb_refl. simpl.
  destruct (is_entry_parameter d); simpl; [|reflexivity].
  now rewrite Z.eqb_refl.
Qed.

(** X3. [operator==] never trips the assertion of
    [entry_parameter_number()]: it answers on any two descriptors. *)
Lemma eqb_total a b : exists r, eqb a b = Some r.
Proof.
  unfold eqb, entry_parameter_number, is_entry_parameter.
  destruct (Kind_eqb (kind a) (kind b)) eqn:Ek; simpl; [|eauto].
  destruct (size a =? size b); simpl; [|eauto].
  apply Kind_eqb_eq in Ek. rewrite <- Ek.
  destruct (Kind_eqb (kind a) kEntryParameter); simpl; eauto.
Qed.

(** C1. Round trip: a descriptor built by any of the four factory methods
    (from any [uint64_t] size, so in particular 0, 1 and 2^62-1, and any
    parameter number, so in particular the one [-1] converts to) is
    reproduced by decoding its two-word encoding: the decoded descriptor is
    the same value, and [operator==] says so. *)
Theorem roundtrip_decode_encode (d : t) :
  from_factory d ->
  decode (Encode d) = d /\ eqb (decode (Encode d)) d = Some true.
Proof.
  intros Hd. apply from_factory_wf in Hd.
  rewrite decode_Encode by exact Hd.
  split; [reflexivity | apply eqb_refl].
Qed.

Lemma roundtrip_decode_encode_witness :
  let d := MakeEntryParameter (2 ^ 62 - 1) (to_uint64 (-1)) in
  from_factory d /\
  decode (Encode d) = d /\ eqb (decode (Encode d)) d = Some true.
Proof.
  split.
  - apply ff_entry; unfold is_uint64; vm_compute; split; congruence.
  - apply (roundtrip_decode_encode
             (MakeEntryParameter (2 ^ 62 - 1) (to_uint64 (-1)))).
    apply ff_entry; unfold is_uint64; vm_compute; split; congruence.
Defined.

(** The sizes and parameter numbers the round-trip property names, on every
    factory. *)
Example roundtrip_named_inputs :
  forall d,
    In d (flat_map (fun s =>
            [MakeTempBuffer s; MakeConstant s; MakeOnStackBuffer s;
             MakeEntryParameter s 0; MakeEntryParameter s 7;
             MakeEntryParameter s (to_uint64 (-1))])
            [0; 1; 2 ^ 62 - 1]) ->
    decode (Encode d) = d /\ eqb (decode (Encode d)) d = Some true.
Proof.
  intros d Hd. simpl in Hd.
  repeat (destruct Hd as [<- | Hd]; [split; vm_compute; reflexivity|]).
  destruct Hd.
Qed.

(** C7. Equality law: two entry-parameter descriptors of equal size and
    different parameter numbers compare unequal; two descriptors of the
    same kind other than entry parameter and of equal size compare equal,
    whatever their parameter-number members hold. *)
Theorem equality_law (p q c d : t) :
  wf p -> wf q ->
  kind p = kEntryParameter -> kind q = kEntryParameter ->
  size p = size q ->
  entry_param_number_ p <> entry_param_number_ q ->
  kind c <> kEntryParameter -> kind d = kind c ->
  size c = size d ->
  eqb p q = Some false /\ eqb c d = Some true.
Proof.
  intros [_ Hp] [_ Hq] Kp Kq Spq Npq Kc Kd Scd. split.
  - unfold eqb, entry_parameter_number, is_entry_parameter.
    rewrite Kp, Kq, Spq, Z.eqb_refl. simpl.
    destruct (Z.eqb_spec (to_uint64 (entry_param_number_ p))
                         (to_uint64 (entry_param_number_ q))) as [E|E];
      [|reflexivity].
    exfalso. apply Npq. now apply to_uint64_inj_int64.
  - unfold eqb, is_entry_parameter.
    rewrite Kd, Scd, Kind_eqb_refl, Z.eqb_refl. simpl.
    destruct (Kind_eqb (kind c) kEntryParameter) eqn:E; [|reflexivity].
    apply Kind_eqb_eq in E. contradiction.
Qed.

Lemma equality_law_witness :
  eqb (MakeEntryParameter 8 0) (MakeEntryParameter 8 1) = Some false /\
  eqb (Build kConstant 8 (-1)) (Build kConstant 8 5) = Some true.
Proof.
  apply (equality_law (MakeEntryParameter 8 0) (MakeEntryParameter 8 1)
                      (Build kConstant 8 (-1)) (Build kConstant 8 5)).
  - apply make_wf.
  - apply make_wf.
  - reflexivity.
  - reflexivity.
  - reflexivity.
  - vm_compute. discriminate.
  - simpl. discriminate.
  - reflexivity.
  - reflexivity.
Defined.

(** C8. Packing layout: for every kind and every size below 2^62 the first
    encoding word is [(size << 2) | kind] with nothing lost to the 64-bit
    shift; unpacking any 64-bit word gives size [w >> 2] and the kind whose
    number is the low two bits of [w], a value in 0..3 (never a negative,
    sign-extended one); so a packed word unpacks to exactly the kind and
    size it was built from, and changing the size leaves the recovered kind
    alone and conversely. *)
Theorem pack_unpack_layout (k : Kind) (s w : Z) :
  is_uint62 s -> is_uint64 w ->
  Pack k s = Z.lor (Z.shiftl s 2) (Kind_to_Z k)
  /\ snd (Unpack w) = Z.shiftr w 2
  /\ Kind_to_Z (fst (Unpack w)) = Z.land w 3
  /\ 0 <= Kind_to_Z (fst (Unpack w)) < 4
  /\ Unpack (Pack k s) = (k, s)
  /\ (forall s', is_uint62 s' -> fst (Unpack (Pack k s')) = k)
  /\ (forall k', snd (Unpack (Pack k' s)) = s).
Proof.
  intros Hs Hw.
  split; [|split; [|split; [|split; [|split; [|split]]]]].
  - unfold Pack, shl64. rewrite to_uint64_small; [reflexivity|].
    rewrite Z.shiftl_mul_pow2 by lia. unfold_ranges.
    change (2 ^ 2) with 4. lia.
  - reflexivity.
  - rewrite Unpack_arith. cbn [fst].
    rewrite Kind_to_of_Z, land_3_mod. apply Zmod_mod.
  - apply Kind_to_Z_range.
  - now apply Unpack_Pack.
  - intros s' Hs'. now rewrite Unpack_Pack.
  - intros k'. now rewrite Unpack_Pack.
Qed.

Lemma pack_unpack_layout_witness :
  is_uint62 (2 ^ 62 - 1) /\ is_uint64 (2 ^ 64 - 1)
  /\ Pack kOnStackBuffer (2 ^ 62 - 1) = Z.lor (Z.shiftl (2 ^ 62 - 1) 2) 3
  /\ snd (Unpack (2 ^ 64 - 1)) = Z.shiftr (2 ^ 64 - 1) 2
  /\ Kind_to_Z (fst (Unpack (2 ^ 64 - 1))) = Z.land (2 ^ 64 - 1) 3
  /\ Unpack (Pack kOnStackBuffer (2 ^ 62 - 1))
     = (kOnStackBuffer, 2 ^ 62 - 1).
Proof.
  assert (Hs : is_uint62 (2 ^ 62 - 1))
    by (unfold is_uint62; vm_compute; split; congruence).
  assert (Hw : is_uint64 (2 ^ 64 - 1))
    by (unfold is_uint64; vm_compute; split; congruence).
  destruct (pack_unpack_layout kOnStackBuffer (2 ^ 62 - 1) (2 ^ 64 - 1)
              Hs Hw) as (A & B & C & _ & E & _).
  exact (conj Hs (conj Hw (conj A (conj B (conj C E))))).
Defined.

(** C10. The decoding constructor is defined on every pair of 64-bit words,
    and encoding what it builds gives the pair back: every two-bit pattern
    is a kind, the upper 62 bits are the size, and the second word survives
    the trip through [int64_t]. *)
Theorem encode_decode_any_words (w1 w2 : Z) :
  is_uint64 w1 -> is_uint64 w2 ->
  Encode (decode (w1, w2)) = (w1, w2).
Proof.
  intros H1 H2. unfold decode.
  destruct (Unpack (fst (w1, w2))) as [k s] eqn:E. simpl in E.
  unfold Encode, kind. cbn [fst snd kind_ size_ entry_param_number_].
  pose proof (Unpack_size_range w1 H1) as Hs.
  pose proof (Pack_Unpack w1 H1) as Hp.
  rewrite E in Hs, Hp. simpl in Hs, Hp.
  rewrite (Z.mod_small s) by exact Hs.
  rewrite Hp, to_uint64_to_int64 by exact H2.
  reflexivity.
Qed.

Lemma encode_decode_any_words_witness :
  Encode (decode (2 ^ 64 - 1, 2 ^ 63)) = (2 ^ 64 - 1, 2 ^ 63).
Proof.
  apply (encode_decode_any_words (2 ^ 64 - 1) (2 ^ 63));
    unfold is_uint64; vm_compute; split; congruence.
Defined.

(** The decoded descriptor is always one the members can hold. *)
Lemma decode_wf e : wf (decode e).
Proof.
  unfold decode. destruct (Unpack (fst e)) as [k s]. split; simpl.
  - unfold is_uint62. apply Z.mod_pos_bound. reflexivity.
  - apply to_int64_range.
Qed.

End BufferInfoFacts.

(** ** The grid and its order *)

Lemma in_indices bound i : In i (indices bound) <-> 0 <= i < bound.
Proof.
  unfold indices. rewrite in_map_iff. split.
  - intros (n & <- & Hn). apply in_seq in Hn. lia.
  - intros Hi. exists (Z.to_nat i). split; [lia|]. apply in_seq. lia.
Qed.

Lemma indices_NoDup bound : NoDup (indices bound).
Proof.
  unfold indices. apply NoDup_map_NoDup_ForallPairs; [|apply seq_NoDup].
  intros a b _ _ E. lia.
Qed.

Lemma indices_length bound : List.length (indices bound) = Z.to_nat bound.
Proof. unfold indices. now rewrite length_map, length_seq. Qed.

Lemma indices_nth_error bound n :
  (n < Z.to_nat bound)%nat -> nth_error (indices bound) n = Some (Z.of_nat n).
Proof.
  intros Hn. unfold indices. apply map_nth_error.
  rewrite nth_error_seq. destruct (Nat.ltb_spec n (Z.to_nat bound)); [|lia].
  reflexivity.
Qed.

Lemma indices_nonpositive bound : bound <= 0 -> indices bound = [].
Proof.
  intros H. unfold indices. now replace (Z.to_nat bound) with O by lia.
Qed.

Lemma flat_map_nil_blocks {A B} (f : A -> list B) l :
  (forall a, f a = []) -> flat_map f l = [].
Proof.
  intros E. induction l as [|a l IH]; simpl; [reflexivity|].
  now rewrite E, IH.
Qed.

(** Blocks that carry the element they were made from do not overlap. *)
Lemma NoDup_flat_map_tagged {A B} (f : A -> list B) (tag : B -> A) l :
  NoDup l -> (forall a, NoDup (f a)) ->
  (forall a b, In b (f a) -> tag b = a) ->
  NoDup (flat_map f l).
Proof.
  intros Hl Hf Htag. induction Hl as [|a l Ha Hl IH]; simpl.
  - constructor.
  - apply NoDup_app; [apply Hf | exact IH |].
    intros b Hb Hb'. apply in_flat_map in Hb' as (a' & Ha' & Hb').
    apply Htag in Hb, Hb'. congruence.
Qed.

(** Position in a concatenation of blocks of one length. *)
Lemma flat_map_nth_error_uniform {A B} (f : A -> list B) m l :
  (forall a, List.length (f a) = m) ->
  forall i j a, nth_error l i = Some a -> (j < m)%nat ->
  nth_error (flat_map f l) (i * m + j) = nth_error (f a) j.
Proof.
  intros Hm. induction l as [|a0 l IH]; intros i j a Hi Hj.
  - destruct i; discriminate.
  - destruct i as [|i]; simpl in Hi |- *.
    + injection Hi as ->. apply nth_error_app1. rewrite Hm. exact Hj.
    + rewrite nth_error_app2 by (rewrite Hm; lia).
      rewrite Hm. replace (m + i * m + j - m)%nat with (i * m + j)%nat by lia.
      now apply IH.
Qed.

Lemma grid_order_in d t :
  In t (grid_order d) <->
  0 <= thread_x t < dim_x d /\ 0 <= thread_y t < dim_y d
  /\ 0 <= thread_z t < dim_z d.
Proof.
  unfold grid_order. rewrite in_flat_map. split.
  - intros (z & Hz & H). apply in_flat_map in H as (y & Hy & H).
    apply in_map_iff in H as (x & <- & Hx).
    apply in_indices in Hx, Hy, Hz. simpl. lia.
  - intros (Hx & Hy & Hz). exists (thread_z t).
    split; [now apply in_indices|].
    apply in_flat_map. exists (thread_y t).
    split; [now apply in_indices|].
    apply in_map_iff. exists (thread_x t).
    split; [now destruct t | now apply in_indices].
Qed.

Lemma grid_order_NoDup d : NoDup (grid_order d).
Proof.
  unfold grid_order.
  apply NoDup_flat_map_tagged with (tag := thread_z).
  - apply indices_NoDup.
  - intros z. apply NoDup_flat_map_tagged with (tag := thread_y).
    + apply indices_NoDup.
    + intros y. apply NoDup_map_NoDup_ForallPairs; [|apply indices_NoDup].
      intros a b _ _ E. now injection E.
    + intros y t H. apply in_map_iff in H as (x & <- & _). reflexivity.
  - intros z t H. apply in_flat_map in H as (y & _ & H).
    apply in_map_iff in H as (x & <- & _). reflexivity.
Qed.

Lemma grid_order_length d :
  List.length (grid_order d)
  = (Z.to_nat (dim_z d) * (Z.to_nat (dim_y d) * Z.to_nat (dim_x d)))%nat.
Proof.
  unfold grid_order.
  rewrite flat_map_constant_length
    with (c := (Z.to_nat (dim_y d) * Z.to_nat (dim_x d))%nat).
  - now rewrite indices_length.
  - intros z _.
    rewrite flat_map_constant_length with (c := Z.to_nat (dim_x d)).
    + now rewrite indices_length.
    + intros y _. now rewrite length_map, indices_length.
Qed.

(** The place of a coordinate in grid order: [x] moves fastest, then [y],
    then [z]. *)
Lemma grid_order_nth_error d t :
  0 <= thread_x t < dim_x d -> 0 <= thread_y t < dim_y d ->
  0 <= thread_z t < dim_z d ->
  nth_error (grid_order d)
    (Z.to_nat (thread_z t * (dim_y d * dim_x d)
               + thread_y t * dim_x d + thread_x t))
  = Some t.
Proof.
  intros Hx Hy Hz. destruct t as [x y z]; simpl in *.
  set (X := Z.to_nat (dim_x d)). set (Y := Z.to_nat (dim_y d)).
  replace (Z.to_nat (z * (dim_y d * dim_x d) + y * dim_x d + x))
    with (Z.to_nat z * (Y * X) + (Z.to_nat y * X + Z.to_nat x))%nat
    by (subst X Y; nia).
  unfold grid_order.
  rewrite flat_map_nth_error_uniform with (a := z).
  - rewrite flat_map_nth_error_uniform with (a := y).
    + rewrite nth_error_map, indices_nth_error by lia.
      simpl. now rewrite Z2Nat.id by lia.
    + intros a. now rewrite length_map, indices_length.
    + rewrite indices_nth_error by lia. now rewrite Z2Nat.id by lia.
    + subst X. lia.
  - intros a.
    rewrite flat_map_constant_length with (c := X).
    + now rewrite indices_length.
    + intros b _. now rewrite length_map, indices_length.
  - rewrite indices_nth_error by lia. now rewrite Z2Nat.id by lia.
  - subst X Y. nia.
Qed.

Lemma grid_order_empty d :
  dim_x d = 0 \/ dim_y d = 0 \/ dim_z d = 0 -> grid_order d = [].
Proof.
  intros H. unfold grid_order.
  destruct (Z.eq_dec (dim_z d) 0) as [Ez|Ez];
    [now rewrite Ez|].
  apply flat_map_nil_blocks; intros z.
  destruct (Z.eq_dec (dim_y d) 0) as [Ey|Ey];
    [now rewrite Ey|].
  apply flat_map_nil_blocks; intros y.
  destruct H as [Ex|[?|?]]; try contradiction.
  now rewrite Ex.
Qed.

(** ** Kernel launch *)

Section LaunchFacts.

Context {Mem : Type}.
Implicit Types (kernel : XLA_CPU_Kernel Mem) (w : World Mem).
Implicit Types (d : XLA_CPU_KernelThreadDim).
Implicit Types (args : list XLA_CPU_KernelArg).

(** *** Loops as traversals of index lists *)

Lemma for_loop_until_return
    (body : Z -> World Mem -> option absl_Status * World Mem) n k w :
  for_loop Mem n (Z.of_nat k) (Z.of_nat (k + n)) body w
  = until_return body (map Z.of_nat (seq k n)) w.
Proof.
  revert k w. induction n as [|n IH]; intros k w; simpl; [reflexivity|].
  destruct (Z.ltb_spec (Z.of_nat k) (Z.of_nat (k + S n))) as [_|H]; [|lia].
  destruct (body (Z.of_nat k) w) as [[status|] w']; [reflexivity|].
  replace (Z.of_nat k + 1) with (Z.of_nat (S k)) by lia.
  replace (k + S n)%nat with (S k + n)%nat by lia.
  apply IH.
Qed.

(** The fuel of [for_below] is never what ends the loop: with one more unit
    of it the loop does the same. *)
Lemma for_loop_fuel_suffices
    (body : Z -> World Mem -> option absl_Status * World Mem) n k w :
  for_loop Mem (S n) (Z.of_nat k) (Z.of_nat (k + n)) body w
  = for_loop Mem n (Z.of_nat k) (Z.of_nat (k + n)) body w.
Proof.
  revert k w. induction n as [|n IH]; intros k w.
  - simpl. rewrite Nat.add_0_r, Z.ltb_irrefl. reflexivity.
  - change (for_loop Mem (S (S n)) (Z.of_nat k) (Z.of_nat (k + S n)) body w)
      with (if Z.of_nat k <? Z.of_nat (k + S n)
            then match body (Z.of_nat k) w with
                 | (Some status, w') => (Some status, w')
                 | (None, w') =>
                     for_loop Mem (S n) (Z.of_nat k + 1)
                       (Z.of_nat (k + S n)) body w'
                 end
            else (None, w)).
    change (for_loop Mem (S n) (Z.of_nat k) (Z.of_nat (k + S n)) body w)
      with (if Z.of_nat k <? Z.of_nat (k + S n)
            then match body (Z.of_nat k) w with
                 | (Some status, w') => (Some status, w')
                 | (None, w') =>
                     for_loop Mem n (Z.of_nat k + 1)
                       (Z.of_nat (k + S n)) body w'
                 end
            else (None, w)).
    destruct (Z.of_nat k <? Z.of_nat (k + S n)); [|reflexivity].
    destruct (body (Z.of_nat k) w) as [[status|] w']; [reflexivity|].
    replace (Z.of_nat k + 1) with (Z.of_nat (S k)) by lia.
    replace (k + S n)%nat with (S k + n)%nat by lia.
    apply IH.
Qed.

Lemma for_below_until_return
    (body : Z -> World Mem -> option absl_Status * World Mem) bound w :
  for_below Mem bound body w = until_return body (indices bound) w.
Proof.
  unfold for_below, indices.
  destruct (Z.le_gt_cases 0 bound) as [H|H].
  - rewrite <- (for_loop_until_return body (Z.to_nat bound) 0).
    simpl Nat.add. now rewrite Z2Nat.id by exact H.
  - now replace (Z.to_nat bound) with O by lia.
Qed.

Lemma until_return_ext {A}
    (f g : A -> World Mem -> option absl_Status * World Mem) l w :
  (forall a w', f a w' = g a w') ->
  until_return f l w = until_return g l w.
Proof.
  intros E. revert w. induction l as [|a l IH]; intros w; simpl;
    [reflexivity|].
  rewrite E. destruct (g a w) as [[status|] w']; [reflexivity | apply IH].
Qed.

Lemma until_return_app {A}
    (body : A -> World Mem -> option absl_Status * World Mem) l1 l2 w :
  until_return body (l1 ++ l2) w
  = match until_return body l1 w with
    | (Some status, w') => (Some status, w')
    | (None, w') => until_return body l2 w'
    end.
Proof.
  revert w. induction l1 as [|a l1 IH]; intros w; simpl; [reflexivity|].
  destruct (body a w) as [[status|] w']; [reflexivity | apply IH].
Qed.

Lemma until_return_flat_map {A B} (f : A -> list B)
    (body : B -> World Mem -> option absl_Status * World Mem) l w :
  until_return (fun a => until_return body (f a)) l w
  = until_return body (flat_map f l) w.
Proof.
  revert w. induction l as [|a l IH]; intros w; simpl; [reflexivity|].
  rewrite until_return_app.
  destruct (until_return body (f a) w) as [[status|] w'];
    [reflexivity | apply IH].
Qed.

Lemma until_return_map {A B} (f : A -> B)
    (body : B -> World Mem -> option absl_Status * World Mem) l w :
  until_return (fun a => body (f a)) l w = until_return body (map f l) w.
Proof.
  revert w. induction l as [|a l IH]; intros w; simpl; [reflexivity|].
  destruct (body (f a) w) as [[status|] w']; [reflexivity | apply IH].
Qed.

Lemma or_ok_until_return kernel frames w :
  or_ok (until_return (invoke_or_return kernel) frames w)
  = invoke_in_order kernel frames w.
Proof.
  revert w. induction frames as [|frame rest IH]; intros w; simpl;
    [reflexivity|].
  unfold invoke_or_return at 1.
  destruct (invoke kernel frame w) as [[e|] w']; [reflexivity | apply IH].
Qed.

(** The three nested loops of [Launch] visit the frames of the grid in
    grid order and stop at the first failure. *)
Lemma Launch_invoke_in_order kernel d args w :
  Launch kernel d args w = invoke_in_order kernel (launch_frames d args) w.
Proof.
  rewrite <- or_ok_until_return.
  unfold Launch, launch_frames, grid_order, or_ok.
  rewrite for_below_until_return.
  rewrite <- until_return_map, <- until_return_flat_map.
  match goal with
  | |- match ?a with _ => _ end = match ?b with _ => _ end =>
      replace a with b; [reflexivity|]
  end.
  apply until_return_ext; intros z w1.
  rewrite for_below_until_return.
  rewrite <- until_return_flat_map.
  apply until_return_ext; intros y w2.
  rewrite for_below_until_return.
  rewrite <- until_return_map.
  apply until_return_ext; intros x w3.
  unfold invoke_or_return, make_call_frame.
  destruct d; reflexivity.
Qed.

(** *** What a launch leaves in the trace *)

Lemma invoke_in_order_trace kernel frames w :
  trace (snd (invoke_in_order kernel frames w))
  = trace w ++ map EvKernel (invoked_frames kernel frames (mem w)).
Proof.
  revert w. induction frames as [|frame rest IH]; intros w; simpl.
  - now rewrite app_nil_r.
  - unfold invoke. destruct (kernel frame (mem w)) as [[e|] m]; simpl.
    + reflexivity.
    + rewrite IH. simpl. now rewrite <- app_assoc.
Qed.

Lemma invoke_in_order_outcome kernel frames w :
  match first_failure kernel frames (mem w) with
  | None =>
      fst (invoke_in_order kernel frames w) = OkStatus
      /\ invoked_frames kernel frames (mem w) = frames
  | Some failing =>
      fst (invoke_in_order kernel frames w)
      = InternalError "Failed to call host kernel"
      /\ exists before after,
           frames = before ++ failing :: after
           /\ invoked_frames kernel frames (mem w) = before ++ [failing]
  end.
Proof.
  revert w. induction frames as [|frame rest IH]; intros w; simpl.
  - split; reflexivity.
  - unfold invoke. destruct (kernel frame (mem w)) as [[e|] m] eqn:E; simpl.
    + split; [reflexivity|]. now exists [], rest.
    + specialize (IH {| mem := m; trace := trace w ++ [EvKernel frame] |}).
      simpl in IH.
      destruct (first_failure kernel rest m) as [failing|].
      * destruct IH as (Hs & before & after & Hf & Hi).
        split; [exact Hs|].
        exists (frame :: before), after. simpl. rewrite Hi.
      split; [f_equal; exact Hf | reflexivity].
      * destruct IH as (Hs & Hi). split; [exact Hs|]. now rewrite Hi.
Qed.

(** C4. The synchronous launch calls the kernel on the frames of the grid in
    grid order ([z] outermost, then [y], then [x] fastest), each frame holding
    the grid dimensions, the coordinate and the arguments; the calls it makes
    are the frames up to and including the first one whose error is non-null,
    after which it returns a failure at once; when no call fails, every frame
    of the grid is called, once, and the launch returns success. *)
Theorem Launch_in_grid_order kernel d args w :
  Launch kernel d args w
  = invoke_in_order kernel (map (make_call_frame d args) (grid_order d)) w
  /\ trace (snd (Launch kernel d args w))
     = trace w
       ++ map EvKernel (invoked_frames kernel (launch_frames d args) (mem w))
  /\ match first_failure kernel (launch_frames d args) (mem w) with
     | None =>
         fst (Launch kernel d args w) = OkStatus
         /\ invoked_frames kernel (launch_frames d args) (mem w)
            = map (make_call_frame d args) (grid_order d)
     | Some failing =>
         ok (fst (Launch kernel d args w)) = false
         /\ exists before after,
              map (make_call_frame d args) (grid_order d)
              = before ++ failing :: after
              /\ invoked_frames kernel (launch_frames d args) (mem w)
                 = before ++ [failing]
     end
  /\ NoDup (grid_order d)
  /\ (forall t,
        In t (grid_order d) <->
        0 <= thread_x t < dim_x d /\ 0 <= thread_y t < dim_y d
        /\ 0 <= thread_z t < dim_z d)
  /\ (forall t,
        In t (grid_order d) ->
        nth_error (grid_order d)
          (Z.to_nat (thread_z t * (dim_y d * dim_x d)
                     + thread_y t * dim_x d + thread_x t))
        = Some t).
Proof.
  split; [apply Launch_invoke_in_order|].
  split; [rewrite Launch_invoke_in_order; apply invoke_in_order_trace|].
  split.
  { rewrite Launch_invoke_in_order.
    pose proof (invoke_in_order_outcome kernel (launch_frames d args) w) as H.
    destruct (first_failure kernel (launch_frames d args) (mem w)).
    - destruct H as [-> H]. split; [reflexivity | exact H].
    - exact H. }
  split; [apply grid_order_NoDup|].
  split; [apply grid_order_in|].
  intros t Ht. apply grid_order_in in Ht as (Hx & Hy & Hz).
  now apply grid_order_nth_error.
Qed.

(** *** Failure messages *)

Lemma Launch_status kernel d args w :
  fst (Launch kernel d args w) = OkStatus
  \/ fst (Launch kernel d args w) = InternalError "Failed to call host kernel".
Proof.
  rewrite Launch_invoke_in_order.
  pose proof (invoke_in_order_outcome kernel (launch_frames d args) w) as H.
  destruct (first_failure kernel (launch_frames d args) (mem w));
    destruct H as [-> _]; auto.
Qed.

(** *** Empty grids *)

Lemma Launch_empty_grid kernel d args w :
  dim_x d = 0 \/ dim_y d = 0 \/ dim_z d = 0 ->
  Launch kernel d args w = (OkStatus, w).
Proof.
  intros H. rewrite Launch_invoke_in_order. unfold launch_frames.
  now rewrite grid_order_empty.
Qed.

Lemma num_tasks_zero d :
  dim_x d * dim_y d * dim_z d = 0 -> num_tasks d = 0.
Proof.
  intros H. unfold num_tasks, mul64, to_uint64.
  apply Z.eq_mul_0 in H as [H|H].
  - now rewrite H.
  - rewrite H, Z.mul_0_r. reflexivity.
Qed.

Lemma num_tasks_one d :
  valid_dims d -> dim_x d * dim_y d * dim_z d = 1 ->
  d = {| dim_x := 1; dim_y := 1; dim_z := 1 |}.
Proof.
  destruct d as [x y z]. unfold valid_dims, is_uint64. simpl.
  intros (Hx & Hy & Hz) H.
  assert (x = 1 /\ y = 1 /\ z = 1) as (-> & -> & ->); [|reflexivity].
  apply Z.eq_mul_1_nonneg' in H as [H ->]; [|lia].
  apply Z.eq_mul_1_nonneg in H as [-> ->]; [|lia].
  repeat split.
Qed.

Section Async.

Context {PoolEvent : Type}.
Variable body :
  ThreadPoolDevice -> Z -> Z -> KernelParallelTask Mem -> Mem
  -> PoolEvent * Mem.

(** With one task the launch is the synchronous launch, wrapped. *)
Lemma LaunchAsync_one_task kernel d args device w :
  num_tasks d = 1 ->
  LaunchAsync body kernel d args device w
  = Returned
      (if ok (fst (Launch kernel d args w)) then OkLaunchEvent
       else MakeErrorAsyncValueRef (fst (Launch kernel d args w)))
      (snd (Launch kernel d args w)).
Proof.
  intros H. unfold LaunchAsync. rewrite H. simpl.
  now destruct (Launch kernel d args w).
Qed.

Lemma LaunchAsync_no_tasks kernel d args device w :
  num_tasks d = 0 ->
  LaunchAsync body kernel d args device w
  = CheckFailed "Number of tasks must be positive" w.
Proof. intros H. unfold LaunchAsync. now rewrite H. Qed.

(** C5. With a worker pool and a grid of one task, the launch makes its
    single kernel call inline and returns a completion signal that is already
    resolved, to success when the call returned null and to the failure
    otherwise; the only event of the launch is that kernel call, so the pool
    is never invoked. *)
Theorem single_task_runs_inline kernel d args device w :
  valid_dims d -> dim_x d * dim_y d * dim_z d = 1 ->
  let frame := make_call_frame d args (KernelThread 0 0 0) in
  let signal : AsyncValueRef PoolEvent :=
    match fst (kernel frame (mem w)) with
    | None => OkLaunchEvent
    | Some _ =>
        MakeErrorAsyncValueRef (InternalError "Failed to call host kernel")
    end in
  num_tasks d = 1
  /\ LaunchAsync body kernel d args device w
     = Returned signal
         {| mem := snd (kernel frame (mem w));
            trace := trace w ++ [EvKernel frame] |}
  /\ resolved signal = true.
Proof.
  intros Hd H. apply num_tasks_one in H; [|exact Hd]. subst d.
  split; [reflexivity|]. split.
  - rewrite LaunchAsync_one_task by reflexivity.
    rewrite Launch_invoke_in_order.
    unfold launch_frames, grid_order, indices. simpl. unfold invoke.
    destruct (kernel _ (mem w)) as [[e|] m]; reflexivity.
  - simpl. now destruct (fst (kernel _ (mem w))).
Qed.

(** C6. With a worker pool, a task count of zero (the product of the grid
    dimensions, as mathematics or as the 64-bit product the code computes)
    fails the fatal check: the launch does not return, calls no kernel and
    does not reach the pool. *)
Theorem zero_tasks_is_fatal kernel d args device w :
  dim_x d * dim_y d * dim_z d = 0 \/ num_tasks d = 0 ->
  LaunchAsync body kernel d args device w
  = CheckFailed "Number of tasks must be positive" w.
Proof.
  intros [H|H]; apply LaunchAsync_no_tasks; [now apply num_tasks_zero | exact H].
Qed.

(** C9. Without a worker pool, a grid with a zero dimension is no error: the
    launch calls the kernel zero times (memory and trace are unchanged) and
    returns success, whereas the launch with a pool dies in its check on the
    same grid. *)
Theorem empty_grid_launch_succeeds kernel d args device w :
  dim_x d = 0 \/ dim_y d = 0 \/ dim_z d = 0 ->
  Launch kernel d args w = (OkStatus, w)
  /\ LaunchAsync body kernel d args device w
     = CheckFailed "Number of tasks must be positive" w.
Proof.
  intros H. split; [now apply Launch_empty_grid|].
  apply LaunchAsync_no_tasks, num_tasks_zero.
  destruct H as [E | [E | E]]; rewrite E; lia.
Qed.

End Async.

End LaunchFacts.

(** ** Messages and coordinates *)

Lemma decimal_head z :
  exists c rest, decimal z = String c rest /\ In c digits.
Proof.
  unfold decimal, NilZero.string_of_uint.
  destruct (N.to_uint (Z.to_N z)); simpl; eexists; eexists;
    (split; [reflexivity|]); unfold digits; simpl; tauto.
Qed.

Lemma generic_message_has_no_digit c rest :
  In c digits -> contains (String c rest) "Failed to call host kernel" = false.
Proof.
  unfold digits. simpl.
  intros H.
  repeat (destruct H as [<- | H]; [reflexivity|]).
  destruct H.
Qed.

(** The message of the synchronous launch names no coordinate at all. *)
Lemma generic_message_names_no_coordinate t :
  includes_coordinate "Failed to call host kernel" t = false.
Proof.
  unfold includes_coordinate.
  destruct (decimal_head (thread_x t)) as (c & rest & -> & Hc).
  now rewrite generic_message_has_no_digit.
Qed.

Lemma prefix_append s rest : String.prefix s (s ++ rest)%string = true.
Proof.
  induction s as [|c s IH]; simpl.
  - now destruct rest.
  - destruct (ascii_dec c c); [exact IH | contradiction].
Qed.

Lemma contains_prefix s hay : String.prefix s hay = true -> contains s hay = true.
Proof. intros H. destruct hay; cbn [contains]; rewrite H; reflexivity. Qed.

Lemma contains_append_l s before hay :
  contains s hay = true -> contains s (before ++ hay)%string = true.
Proof.
  intros H. induction before as [|c before IH]; simpl; [exact H|].
  rewrite IH. apply orb_true_r.
Qed.

Lemma contains_middle s before rest :
  contains s (before ++ s ++ rest)%string = true.
Proof. apply contains_append_l, contains_prefix, prefix_append. Qed.

Lemma contains_end s before : contains s (before ++ s)%string = true.
Proof.
  apply contains_append_l, contains_prefix.
  induction s as [|c s IH]; simpl; [reflexivity|].
  destruct (ascii_dec c c); [exact IH | contradiction].
Qed.

(** The message of a failed parallel task names the task's coordinate. *)
Lemma task_failure_message_names_coordinate t :
  includes_coordinate (task_failure_message t) t = true.
Proof.
  unfold includes_coordinate, task_failure_message.
  apply andb_true_iff; split; [apply andb_true_iff; split|].
  - apply contains_middle.
  - do 2 apply contains_append_l. apply contains_middle.
  - do 4 apply contains_append_l. apply contains_end.
Qed.

(** ** Delinearization *)

(** X1. While the strides do not wrap, [Delinearize] inverts the grid order:
    the task index is the place of the coordinate it yields. *)
Lemma Delinearize_grid_order d i :
  valid_dims d -> dim_y d * dim_x d < uint64_modulus ->
  0 <= i < dim_z d * (dim_y d * dim_x d) ->
  exists t,
    Delinearize d i = Some t
    /\ nth_error (grid_order d) (Z.to_nat i) = Some t
    /\ i = thread_z t * (dim_y d * dim_x d) + thread_y t * dim_x d
           + thread_x t.
Proof.
  destruct d as [X Y Z]. unfold valid_dims, is_uint64. simpl.
  intros (HX & HY & HZ) Hs Hi.
  assert (0 < X) by nia. assert (0 < Y) by nia.
  assert (HYX : 0 < Y * X) by nia.
  unfold Delinearize, mul64. simpl.
  rewrite (to_uint64_small (Y * X)) by (unfold is_uint64; lia).
  destruct (Z.eqb_spec (Y * X) 0) as [E|_]; [lia|].
  destruct (Z.eqb_spec X 0) as [E|_]; [lia|].
  eexists. split; [reflexivity|].
  pose proof (Z.div_mod i (Y * X) ltac:(lia)) as Hz.
  pose proof (Z.mod_pos_bound i (Y * X) HYX) as Hr.
  pose proof (Z.div_mod (i mod (Y * X)) X ltac:(lia)) as Hy.
  pose proof (Z.mod_pos_bound (i mod (Y * X)) X ltac:(lia)) as Hx.
  assert (0 <= i / (Y * X) < Z).
  { split; [apply Z.div_pos; lia|].
    apply Z.div_lt_upper_bound; [lia|]. nia. }
  assert (0 <= (i mod (Y * X)) / X < Y).
  { split; [apply Z.div_pos; lia|].
    apply Z.div_lt_upper_bound; [lia|]. nia. }
  assert (Ei : i = i / (Y * X) * (Y * X) + (i mod (Y * X)) / X * X
                   + (i mod (Y * X)) mod X) by lia.
  split; [|exact Ei].
  rewrite Ei at 1.
  apply (grid_order_nth_error (ThreadDim X Y Z)
           (KernelThread ((i mod (Y * X)) mod X) ((i mod (Y * X)) / X)
                         (i / (Y * X)))); simpl; lia.
Qed.

(** The claim as the specification words it fails: the code does not give
    [y = 3] for index 37 on the grid (3, 4, 5). *)
Lemma Delinearize_37_is_not_x1_y3_z3 :
  Delinearize (ThreadDim 3 4 5) 37 <> Some (KernelThread 1 3 3).
Proof. vm_compute. discriminate. Qed.

(** C2, amended. On the grid (3, 4, 5), with [x] the fastest-varying
    dimension, task index 37 delinearizes to (x = 1, y = 0, z = 3): the
    formula [z = idx / (Y*X); idx %= Y*X; y = idx / X; x = idx % X] gives
    [z = 37 / 12 = 3], remainder 1, [y = 1 / 3 = 0], [x = 1]; and that
    coordinate is the one at place 37 of the grid order. *)
Theorem Delinearize_37_on_3_4_5 :
  Delinearize (ThreadDim 3 4 5) 37 = Some (KernelThread 1 0 3)
  /\ (37 / (4 * 3), (37 mod (4 * 3)) / 3, (37 mod (4 * 3)) mod 3) = (3, 0, 1)
  /\ nth_error (grid_order (ThreadDim 3 4 5)) 37 = Some (KernelThread 1 0 3).
Proof. repeat split. Qed.

(** ** Failure surfacing *)

(** The claim as the specification words it fails: a kernel failing at
    (1, 2, 0) on the grid (2, 3, 1) makes the synchronous launch return a
    status whose message does not include that coordinate. *)
Lemma sync_failure_does_not_report_coordinate :
  ~ sync_failure_reports_coordinate
      (failing_at (KernelThread 1 2 0)) (ThreadDim 2 3 1) [] empty_world.
Proof.
  intros H.
  specialize (H (make_call_frame (ThreadDim 2 3 1) [] (KernelThread 1 2 0))
                eq_refl).
  vm_compute in H. discriminate.
Qed.

(** C3, amended. In the synchronous launch, when the kernel returns a
    non-null error at some coordinate, the failure returned carries the fixed
    message [Failed to call host kernel], which names no coordinate. *)
Theorem sync_failure_message_is_generic {Mem : Type}
    (kernel : XLA_CPU_Kernel Mem) d args (w : World Mem) failing :
  first_failure kernel (launch_frames d args) (mem w) = Some failing ->
  fst (Launch kernel d args w) = InternalError "Failed to call host kernel"
  /\ forall t,
       status_includes_coordinate (fst (Launch kernel d args w)) t = false.
Proof.
  intros Hf.
  assert (E : fst (Launch kernel d args w)
              = InternalError "Failed to call host kernel").
  { rewrite Launch_invoke_in_order.
    pose proof (invoke_in_order_outcome kernel (launch_frames d args) w) as H.
    rewrite Hf in H. apply H. }
  split; [exact E|].
  intros t. rewrite E. apply generic_message_names_no_coordinate.
Qed.

Lemma sync_failure_message_is_generic_witness :
  first_failure (failing_at (KernelThread 1 2 0))
    (launch_frames (ThreadDim 2 3 1) []) tt
  = Some (make_call_frame (ThreadDim 2 3 1) [] (KernelThread 1 2 0))
  /\ fst (Launch (failing_at (KernelThread 1 2 0)) (ThreadDim 2 3 1) []
            empty_world)
     = InternalError "Failed to call host kernel".
Proof.
  split; [reflexivity|].
  apply (sync_failure_message_is_generic
           (failing_at (KernelThread 1 2 0)) (ThreadDim 2 3 1) [] empty_world
           (make_call_frame (ThreadDim 2 3 1) [] (KernelThread 1 2 0))).
  reflexivity.
Defined.

(** X2. The coordinate is reported by the parallel task instead: when
    [KernelParallelTask::operator()] returns a failure, its message is built
    from the delinearized coordinate and includes it. *)
Lemma run_task_failure_reports_coordinate {Mem : Type}
    (task : KernelParallelTask Mem) i (w w' : World Mem) message :
  run_task task i w = Some (InternalError message, w') ->
  exists t,
    Delinearize (thread_dims_ Mem task) i = Some t
    /\ message = task_failure_message t
    /\ includes_coordinate message t = true.
Proof.
  unfold run_task.
  destruct (negb (i <? num_tasks (thread_dims_ Mem task))); [discriminate|].
  destruct (Delinearize (thread_dims_ Mem task) i) as [t|]; [|discriminate].
  destruct (invoke _ _ w) as [[e|] w1]; intros H; [|discriminate].
  injection H as <- _. exists t.
  split; [reflexivity|]. split; [reflexivity|].
  apply task_failure_message_names_coordinate.
Qed.

(** ** Concrete launches *)

Lemma single_task_runs_inline_witness :
  valid_dims (ThreadDim 1 1 1)
  /\ LaunchAsync inert_pool never_failing (ThreadDim 1 1 1)
       [KernelArg 4096 16] (MkDevice 8) empty_world
     = Returned OkLaunchEvent
         {| mem := tt;
            trace := [EvKernel (make_call_frame (ThreadDim 1 1 1)
                                  [KernelArg 4096 16] (KernelThread 0 0 0))] |}.
Proof.
  assert (Hd : valid_dims (ThreadDim 1 1 1))
    by (unfold valid_dims, is_uint64; vm_compute; intuition congruence).
  split; [exact Hd|].
  exact (proj1 (proj2 (single_task_runs_inline inert_pool never_failing
                         (ThreadDim 1 1 1) [KernelArg 4096 16] (MkDevice 8)
                         empty_world Hd eq_refl))).
Defined.

Lemma zero_tasks_is_fatal_witness :
  LaunchAsync inert_pool never_failing (ThreadDim 0 4 5) [] (MkDevice 8)
    empty_world
  = CheckFailed "Number of tasks must be positive" empty_world.
Proof.
  apply (zero_tasks_is_fatal inert_pool never_failing (ThreadDim 0 4 5) []
           (MkDevice 8) empty_world).
  left. reflexivity.
Defined.

Lemma empty_grid_launch_succeeds_witness :
  Launch never_failing (ThreadDim 3 0 5) [] empty_world
  = (OkStatus, empty_world)
  /\ LaunchAsync inert_pool never_failing (ThreadDim 3 0 5) [] (MkDevice 8)
       empty_world
     = CheckFailed "Number of tasks must be positive" empty_world.
Proof.
  apply (empty_grid_launch_succeeds inert_pool never_failing (ThreadDim 3 0 5)
           [] (MkDevice 8) empty_world).
  right. left. reflexivity.
Defined.

Lemma Delinearize_grid_order_witness :
  exists t,
    Delinearize (ThreadDim 3 4 5) 59 = Some t
    /\ nth_error (grid_order (ThreadDim 3 4 5)) (Z.to_nat 59) = Some t
    /\ 59 = thread_z t * (4 * 3) + thread_y t * 3 + thread_x t.
Proof.
  apply (Delinearize_grid_order (ThreadDim 3 4 5) 59).
  - unfold valid_dims, is_uint64; vm_compute; intuition congruence.
  - reflexivity.
  - simpl. lia.
Defined.

Lemma run_task_failure_reports_coordinate_witness :
  exists t,
    Delinearize (ThreadDim 3 4 5) 37 = Some t
    /\ "Failed to call host kernel: x=1, y=0, z=3"%string
       = task_failure_message t
    /\ includes_coordinate "Failed to call host kernel: x=1, y=0, z=3" t
       = true.
Proof.
  apply (run_task_failure_reports_coordinate
           (MkTask unit (failing_at (KernelThread 1 0 3)) (ThreadDim 3 4 5) [])
           37 empty_world
           {| mem := tt;
              trace := [EvKernel (make_call_frame (ThreadDim 3 4 5) []
                                    (KernelThread 1 0 3))] |}
           "Failed to call host kernel: x=1, y=0, z=3").
  reflexivity.
Defined.

(** ** Buffer descriptors: observers, factories and the encoded layout *)

Module BufferInfoLayout.
Import BufferInfo.
Import BufferInfoFacts.

(** When [operator==] answers true. *)
Lemma eqb_true_iff a b :
  eqb a b = Some true <->
  kind a = kind b /\ size a = size b
  /\ (kind a = kEntryParameter ->
      to_uint64 (entry_param_number_ a) = to_uint64 (entry_param_number_ b)).
Proof.
  unfold eqb, entry_parameter_number, is_entry_parameter.
  destruct (Kind_eqb (kind a) (kind b)) eqn:Ek; simpl.
  - apply Kind_eqb_eq in Ek. rewrite <- Ek.
    destruct (Z.eqb_spec (size a) (size b)) as [Es|Es]; simpl.
    + destruct (Kind_eqb (kind a) kEntryParameter) eqn:Ep; simpl.
      * apply Kind_eqb_eq in Ep.
        destruct (Z.eqb_spec (to_uint64 (entry_param_number_ a))
                             (to_uint64 (entry_param_number_ b))) as [E|E].
        -- tauto.
        -- split; [discriminate|]. intros (_ & _ & H). now apply H in Ep.
      * split; [|reflexivity]. intros _. repeat split; try assumption.
        intros H. apply Kind_eqb_eq in H. congruence.
    + split; [discriminate|]. intros (_ & H & _). contradiction.
  - split; [discriminate|]. intros (H & _). apply Kind_eqb_eq in H. congruence.
Qed.

(** X4. Decoding reads the kind off the low two bits of the first word and
    the size off the other 62: the kind's number is [w1 mod 4], the size is
    [w1 / 4], and each kind predicate tests for one value of [w1 mod 4]. *)
Theorem decode_reads_first_word (w1 w2 : Z) :
  is_uint64 w1 ->
  Kind_to_Z (kind (decode (w1, w2))) = w1 mod 4
  /\ size (decode (w1, w2)) = w1 / 4
  /\ is_constant (decode (w1, w2)) = (w1 mod 4 =? 0)
  /\ is_temp_buffer (decode (w1, w2)) = (w1 mod 4 =? 1)
  /\ is_entry_parameter (decode (w1, w2)) = (w1 mod 4 =? 2)
  /\ is_on_stack_buffer (decode (w1, w2)) = (w1 mod 4 =? 3).
Proof.
  intros Hw.
  assert (Ek : Kind_to_Z (kind (decode (w1, w2))) = w1 mod 4).
  { unfold decode. cbn [fst]. rewrite Unpack_arith. cbn [kind kind_].
    rewrite Kind_to_of_Z. apply Zmod_mod. }
  split; [exact Ek|]. split.
  - unfold decode. cbn [fst]. rewrite Unpack_arith. cbn [size size_].
    apply Z.mod_small.
    pose proof (Unpack_size_range w1 Hw) as H.
    rewrite Unpack_arith in H. exact H.
  - unfold is_constant, is_temp_buffer, is_entry_parameter,
      is_on_stack_buffer.
    rewrite <- Ek.
    destruct (kind (decode (w1, w2))); repeat split.
Qed.

Lemma decode_reads_first_word_witness :
  is_uint64 (2 ^ 64 - 2)
  /\ Kind_to_Z (kind (decode (2 ^ 64 - 2, 7))) = (2 ^ 64 - 2) mod 4
  /\ size (decode (2 ^ 64 - 2, 7)) = (2 ^ 64 - 2) / 4
  /\ is_entry_parameter (decode (2 ^ 64 - 2, 7)) = true.
Proof.
  assert (Hw : is_uint64 (2 ^ 64 - 2))
    by (unfold is_uint64; vm_compute; split; congruence).
  destruct (decode_reads_first_word (2 ^ 64 - 2) 7 Hw)
    as (A & B & _ & _ & C & _).
  exact (conj Hw (conj A (conj B C))).
Defined.

(** X5. A factory keeps only the low 62 bits of the size it is given: two
    calls of the same factory (with the same parameter number) give equal
    descriptors exactly when the sizes agree modulo 2^62, and a size below
    2^62 is stored as given. *)
Theorem factory_size_keeps_62_bits (s s' p : Z) :
  (eqb (MakeTempBuffer s) (MakeTempBuffer s') = Some true
   <-> s mod 2 ^ 62 = s' mod 2 ^ 62)
  /\ (eqb (MakeConstant s) (MakeConstant s') = Some true
      <-> s mod 2 ^ 62 = s' mod 2 ^ 62)
  /\ (eqb (MakeOnStackBuffer s) (MakeOnStackBuffer s') = Some true
      <-> s mod 2 ^ 62 = s' mod 2 ^ 62)
  /\ (eqb (MakeEntryParameter s p) (MakeEntryParameter s' p) = Some true
      <-> s mod 2 ^ 62 = s' mod 2 ^ 62)
  /\ size (MakeTempBuffer s) = s mod 2 ^ 62
  /\ size (MakeConstant s) = s mod 2 ^ 62
  /\ size (MakeOnStackBuffer s) = s mod 2 ^ 62
  /\ size (MakeEntryParameter s p) = s mod 2 ^ 62.
Proof.
  repeat match goal with |- _ /\ _ => split end;
    try reflexivity;
    rewrite eqb_true_iff; cbn; unfold uint62_modulus; tauto.
Qed.

(** X6. [entry_parameter_number()] gives back the parameter number an entry
    parameter was made with, and trips its assertion on the descriptors of
    the other three factories. *)
Theorem entry_parameter_number_of_factories (s p : Z) :
  is_uint64 p ->
  entry_parameter_number (MakeEntryParameter s p) = Some p
  /\ entry_parameter_number (MakeTempBuffer s) = None
  /\ entry_parameter_number (MakeConstant s) = None
  /\ entry_parameter_number (MakeOnStackBuffer s) = None.
Proof.
  intros Hp. repeat match goal with |- _ /\ _ => split end;
    try reflexivity.
  unfold entry_parameter_number, MakeEntryParameter, make. simpl.
  now rewrite to_uint64_to_int64.
Qed.

Lemma entry_parameter_number_of_factories_witness :
  is_uint64 (2 ^ 64 - 1)
  /\ entry_parameter_number (MakeEntryParameter 24 (2 ^ 64 - 1))
     = Some (2 ^ 64 - 1).
Proof.
  assert (Hp : is_uint64 (2 ^ 64 - 1))
    by (unfold is_uint64; vm_compute; split; congruence).
  exact (conj Hp
           (proj1 (entry_parameter_number_of_factories 24 (2 ^ 64 - 1) Hp))).
Defined.

(** X7. The encoded layout of each factory's descriptor, for a size below
    2^62: the first word is four times the size plus the kind's number (0
    constant, 1 temp buffer, 2 entry parameter, 3 on-stack buffer); the second
    word is the parameter number of an entry parameter and 2^64-1 (the image
    of -1) for the other kinds. *)
Theorem Encode_of_factories (s p : Z) :
  is_uint62 s -> is_uint64 p ->
  Encode (MakeConstant s) = (4 * s, 2 ^ 64 - 1)
  /\ Encode (MakeTempBuffer s) = (4 * s + 1, 2 ^ 64 - 1)
  /\ Encode (MakeEntryParameter s p) = (4 * s + 2, p)
  /\ Encode (MakeOnStackBuffer s) = (4 * s + 3, 2 ^ 64 - 1).
Proof.
  intros Hs Hp.
  assert (Em : s mod uint62_modulus = s) by (apply Z.mod_small; exact Hs).
  unfold Encode, MakeConstant, MakeTempBuffer, MakeEntryParameter,
    MakeOnStackBuffer, make, kind.
  cbn [kind_ size_ entry_param_number_].
  rewrite Em, !Pack_arith by exact Hs.
  rewrite (to_uint64_to_int64 p) by exact Hp.
  cbn [Kind_to_Z]. rewrite Z.add_0_r.
  repeat match goal with |- _ /\ _ => split end; reflexivity.
Qed.

Lemma Encode_of_factories_witness :
  is_uint62 (2 ^ 62 - 1) /\ is_uint64 5
  /\ Encode (MakeEntryParameter (2 ^ 62 - 1) 5)
     = (4 * (2 ^ 62 - 1) + 2, 5).
Proof.
  assert (Hs : is_uint62 (2 ^ 62 - 1))
    by (unfold is_uint62; vm_compute; split; congruence).
  assert (Hp : is_uint64 5)
    by (unfold is_uint64; vm_compute; split; congruence).
  destruct (Encode_of_factories (2 ^ 62 - 1) 5 Hs Hp) as (_ & _ & E & _).
  exact (conj Hs (conj Hp E)).
Defined.

(** X8. Encoding loses nothing: both words are 64-bit values, and two
    descriptors with the same encoding are the same descriptor. *)
Theorem Encode_injective (a b : t) :
  wf a -> wf b -> Encode a = Encode b ->
  a = b
  /\ is_uint64 (fst (Encode a)) /\ is_uint64 (snd (Encode a)).
Proof.
  intros Ha Hb E. split.
  - rewrite <- (decode_Encode a Ha), <- (decode_Encode b Hb). now rewrite E.
  - split; simpl.
    + apply Pack_range, Ha.
    + apply to_uint64_range.
Qed.

Lemma Encode_injective_witness :
  MakeEntryParameter 16 3 = decode (66, 3)
  /\ is_uint64 (fst (Encode (MakeEntryParameter 16 3)))
  /\ is_uint64 (snd (Encode (MakeEntryParameter 16 3))).
Proof.
  apply (Encode_injective (MakeEntryParameter 16 3) (decode (66, 3))).
  - apply make_wf.
  - apply decode_wf.
  - reflexivity.
Defined.

(** X9. [operator==] is symmetric and transitive. *)
Theorem eqb_symmetric_transitive (a b c : t) :
  eqb a b = Some true -> eqb b c = Some true ->
  eqb b a = Some true /\ eqb a c = Some true.
Proof.
  rewrite !eqb_true_iff.
  intros (K1 & S1 & P1) (K2 & S2 & P2). split.
  - repeat split; try congruence.
    intros H. symmetry. apply P1. congruence.
  - repeat split; try congruence.
    intros H. rewrite P1 by exact H. apply P2. congruence.
Qed.

Lemma eqb_symmetric_transitive_witness :
  eqb (decode (9, 4)) (MakeTempBuffer 2) = Some true
  /\ eqb (MakeTempBuffer 2) (Build kTempBuffer 2 0) = Some true.
Proof.
  apply (eqb_symmetric_transitive
           (MakeTempBuffer 2) (decode (9, 4)) (Build kTempBuffer 2 0));
    reflexivity.
Defined.

(** X10. [operator==] in terms of the encodings: two descriptors compare
    equal exactly when their first words are equal and, for an entry
    parameter, their second words are equal too; the second word of any other
    kind is not looked at. *)
Theorem eqb_compares_encodings (a b : t) :
  wf a -> wf b ->
  (eqb a b = Some true <->
   fst (Encode a) = fst (Encode b)
   /\ (is_entry_parameter a = true -> snd (Encode a) = snd (Encode b))).
Proof.
  intros [Ha _] [Hb _]. rewrite eqb_true_iff.
  unfold Encode, is_entry_parameter, size, kind in *. cbn [fst snd].
  rewrite !Pack_arith by assumption.
  pose proof (Kind_to_Z_range (kind_ a)) as Ra.
  pose proof (Kind_to_Z_range (kind_ b)) as Rb.
  split.
  - intros (K & S & P). rewrite K, S. split; [reflexivity|].
    intros H. apply Kind_eqb_eq in H. apply P. congruence.
  - intros (E & P).
    assert (Kind_to_Z (kind_ a) = Kind_to_Z (kind_ b) /\ size_ a = size_ b)
      as (K & S) by lia.
    assert (K' : kind_ a = kind_ b)
      by (rewrite <- (Kind_of_to_Z (kind_ a)), <- (Kind_of_to_Z (kind_ b));
          now rewrite K).
    repeat split; try assumption.
    intros H. apply P. now apply Kind_eqb_eq.
Qed.

Lemma eqb_compares_encodings_witness :
  eqb (MakeConstant 12) (decode (48, 99)) = Some true <->
  fst (Encode (MakeConstant 12)) = fst (Encode (decode (48, 99)))
  /\ (is_entry_parameter (MakeConstant 12) = true ->
      snd (Encode (MakeConstant 12)) = snd (Encode (decode (48, 99)))).
Proof.
  apply (eqb_compares_encodings (MakeConstant 12) (decode (48, 99))).
  - apply make_wf.
  - apply decode_wf.
Defined.

End BufferInfoLayout.

(** ** Converting device buffers to kernel arguments *)

Lemma write_nth_middle {A} (f : A -> A) l1 a l2 :
  write_nth (List.length l1) f (l1 ++ a :: l2) = Some (l1 ++ f a :: l2).
Proof.
  induction l1 as [|b l1 IH]; simpl; [reflexivity|]. now rewrite IH.
Qed.

(** The loop invariant: the arguments before [i] are converted, the buffers
    from [i] on are still to do. *)
Lemma convert_loop_invariant post :
  forall pre cur rest,
    List.length cur = List.length pre ->
    List.length rest = List.length post ->
    convert_loop (List.length post) (Z.of_nat (List.length pre))
      (pre ++ post) (cur ++ rest)
    = Some (cur ++ map kernel_arg_of post).
Proof.
  induction post as [|b post IH]; intros pre cur rest Hc Hr.
  - destruct rest; [|discriminate]. reflexivity.
  - destruct rest as [|a rest]; [discriminate|].
    cbn [List.length convert_loop].
    destruct (Z.ltb_spec (Z.of_nat (List.length pre))
                (Z.of_nat (List.length (pre ++ b :: post)))) as [_|H];
      [|rewrite length_app in H; simpl in H; lia].
    rewrite Nat2Z.id.
    rewrite nth_error_app2, Nat.sub_diag by lia. cbn [nth_error].
    rewrite <- Hc, write_nth_middle, write_nth_middle.
    cbn [arg_data arg_size].
    replace (Z.of_nat (List.length cur) + 1)
      with (Z.of_nat (List.length (pre ++ [b])))
      by (rewrite length_app, Hc; simpl; lia).
    replace (pre ++ b :: post) with ((pre ++ [b]) ++ post)
      by (now rewrite <- app_assoc).
    change (cur ++ {| arg_data := opaque b; arg_size := memory_size b |}
                :: rest)
      with (cur ++ [kernel_arg_of b] ++ rest).
    rewrite app_assoc.
    rewrite IH.
    + now rewrite <- app_assoc.
    + rewrite !length_app, Hc. reflexivity.
    + now injection Hr.
Qed.

Lemma ConvertBuffers_is_map (buffers : list DeviceMemoryBase) :
  ConvertBuffersToKernelArgs buffers = Some (map kernel_arg_of buffers).
Proof.
  unfold ConvertBuffersToKernelArgs.
  apply (convert_loop_invariant buffers [] []
           (repeat {| arg_data := 0; arg_size := 0 |}
                   (List.length buffers))).
  - reflexivity.
  - apply repeat_length.
Qed.

(** X11. [ConvertBuffersToKernelArgs] never reads or writes out of bounds,
    and its result lists, in order, one argument per buffer holding that
    buffer's address and size; so it has as many arguments as there are
    buffers, and none for an empty span. *)
Theorem ConvertBuffersToKernelArgs_maps_buffers
    (buffers : list DeviceMemoryBase) :
  ConvertBuffersToKernelArgs buffers = Some (map kernel_arg_of buffers)
  /\ (forall args,
        ConvertBuffersToKernelArgs buffers = Some args ->
        List.length args = List.length buffers
        /\ forall i b,
             nth_error buffers i = Some b ->
             nth_error args i
             = Some {| arg_data := opaque b; arg_size := memory_size b |}).
Proof.
  pose proof (ConvertBuffers_is_map buffers) as E.
  split; [exact E|].
  intros args H. rewrite E in H. injection H as <-.
  split; [apply length_map|].
  intros i b Hb. change {| arg_data := opaque b; arg_size := memory_size b |}
    with (kernel_arg_of b). now apply map_nth_error.
Qed.

(** ** More on launches *)

Lemma num_tasks_mod d :
  num_tasks d = (dim_x d * dim_y d * dim_z d) mod uint64_modulus.
Proof.
  unfold num_tasks, mul64, to_uint64.
  apply Z.mul_mod_idemp_l. rewrite uint64_modulus_eq. lia.
Qed.

Lemma num_tasks_range d : is_uint64 (num_tasks d).
Proof. unfold num_tasks, mul64. apply to_uint64_range. Qed.

(** A positive task count leaves both strides of [Delinearize] non-zero. *)
Lemma Delinearize_defined d i :
  0 < num_tasks d -> exists t, Delinearize d i = Some t.
Proof.
  intros H. unfold Delinearize.
  assert (Hs : mul64 (dim_y d) (dim_x d) <> 0).
  { intros E. unfold num_tasks, mul64, to_uint64 in H, E.
    rewrite (Z.mul_comm (dim_x d)), E, Z.mul_0_l, Zmod_0_l in H. lia. }
  assert (Hx : dim_x d <> 0).
  { intros E. apply Hs. rewrite E. unfold mul64, to_uint64.
    now rewrite Z.mul_0_r. }
  destruct (Z.eqb_spec (mul64 (dim_y d) (dim_x d)) 0); [contradiction|].
  destruct (Z.eqb_spec (dim_x d) 0); [contradiction|].
  eexists. reflexivity.
Qed.

(** The coordinate at a place of the grid order is the one [Delinearize]
    gives for that place, while the task count does not wrap. *)
Lemma Delinearize_of_place d n :
  valid_dims d -> dim_x d * dim_y d * dim_z d < uint64_modulus ->
  (n < List.length (grid_order d))%nat ->
  exists t,
    Delinearize d (Z.of_nat n) = Some t
    /\ nth_error (grid_order d) n = Some t.
Proof.
  destruct d as [X Y Z]. unfold valid_dims, is_uint64.
  rewrite grid_order_length. simpl.
  intros (HX & HY & HZ) Hp Hn.
  assert (0 < X) by nia. assert (0 < Y) by nia. assert (0 < Z) by nia.
  assert (HYX : 0 < Y * X) by nia.
  set (i := Z.of_nat n).
  assert (Hi : 0 <= i < Z * (Y * X)) by (subst i; nia).
  unfold Delinearize, mul64. simpl.
  rewrite (to_uint64_small (Y * X)) by (unfold is_uint64; nia).
  destruct (Z.eqb_spec (Y * X) 0) as [E|_]; [lia|].
  destruct (Z.eqb_spec X 0) as [E|_]; [lia|].
  eexists. split; [reflexivity|].
  pose proof (Z.div_mod i (Y * X) ltac:(lia)) as Hz.
  pose proof (Z.mod_pos_bound i (Y * X) HYX) as Hr.
  pose proof (Z.div_mod (i mod (Y * X)) X ltac:(lia)) as Hy.
  pose proof (Z.mod_pos_bound (i mod (Y * X)) X ltac:(lia)) as Hx.
  assert (0 <= i / (Y * X) < Z).
  { split; [apply Z.div_pos; lia|].
    apply Z.div_lt_upper_bound; [lia|]. nia. }
  assert (0 <= (i mod (Y * X)) / X < Y).
  { split; [apply Z.div_pos; lia|].
    apply Z.div_lt_upper_bound; [lia|]. nia. }
  replace n with (Z.to_nat (i / (Y * X) * (Y * X) + (i mod (Y * X)) / X * X
                            + (i mod (Y * X)) mod X)) at 1
    by (subst i; lia).
  apply (grid_order_nth_error (ThreadDim X Y Z)
           (KernelThread ((i mod (Y * X)) mod X) ((i mod (Y * X)) / X)
                         (i / (Y * X)))); simpl; lia.
Qed.

(** X12. While the task count does not wrap, the task indices
    [0 .. num_tasks-1] delinearize, in order, to exactly the coordinates the
    synchronous launch visits, in its order: every coordinate of the grid is
    the coordinate of one task index, and of one only. *)
Theorem task_indices_cover_grid d :
  valid_dims d -> dim_x d * dim_y d * dim_z d < uint64_modulus ->
  map (Delinearize d) (indices (num_tasks d)) = map Some (grid_order d)
  /\ NoDup (grid_order d)
  /\ List.length (grid_order d) = Z.to_nat (num_tasks d).
Proof.
  intros Hd Hp.
  assert (Hn : num_tasks d = dim_x d * dim_y d * dim_z d).
  { rewrite num_tasks_mod. apply Z.mod_small.
    destruct Hd as ((? & _) & (? & _) & (? & _)). split; [|exact Hp].
    apply Z.mul_nonneg_nonneg; [apply Z.mul_nonneg_nonneg|]; assumption. }
  assert (Hl : List.length (grid_order d) = Z.to_nat (num_tasks d)).
  { rewrite grid_order_length, Hn.
    destruct Hd as ((? & _) & (? & _) & (? & _)).
    rewrite !Z2Nat.inj_mul; nia. }
  split; [|split; [apply grid_order_NoDup | exact Hl]].
  apply nth_error_ext. intros n.
  rewrite !nth_error_map.
  destruct (Nat.lt_ge_cases n (List.length (grid_order d))) as [H|H].
  - destruct (Delinearize_of_place d n Hd Hp H) as (t & Et & Eg).
    rewrite Eg, indices_nth_error by (rewrite <- Hl; exact H).
    simpl. now rewrite Et.
  - rewrite (proj2 (nth_error_None (grid_order d) n)) by exact H.
    rewrite (proj2 (nth_error_None (indices (num_tasks d)) n));
      [reflexivity|].
    rewrite indices_length, <- Hl. exact H.
Qed.

Lemma task_indices_cover_grid_witness :
  valid_dims (ThreadDim 3 4 5)
  /\ map (Delinearize (ThreadDim 3 4 5)) (indices 60)
     = map Some (grid_order (ThreadDim 3 4 5)).
Proof.
  assert (Hd : valid_dims (ThreadDim 3 4 5))
    by (unfold valid_dims, is_uint64; vm_compute; intuition congruence).
  exact (conj Hd (proj1 (task_indices_cover_grid (ThreadDim 3 4 5) Hd
                           eq_refl))).
Defined.

Section LaunchExtras.

Context {Mem PoolEvent : Type}.
Variable body :
  ThreadPoolDevice -> Z -> Z -> KernelParallelTask Mem -> Mem
  -> PoolEvent * Mem.
Implicit Types (kernel : XLA_CPU_Kernel Mem) (w : World Mem).
Implicit Types (d : XLA_CPU_KernelThreadDim).
Implicit Types (args : list XLA_CPU_KernelArg).

Lemma invoked_frames_length kernel frames (m : Mem) :
  (List.length (invoked_frames kernel frames m) <= List.length frames)%nat.
Proof.
  revert m. induction frames as [|frame rest IH]; intros m; simpl; [lia|].
  destruct (kernel frame m) as [[e|] m']; simpl; [lia|].
  specialize (IH m'). lia.
Qed.

(** X13. The launches on device buffers convert the buffers and launch on
    the result: they never fault in the conversion, and every call frame the
    kernel can be given counts as many arguments as there are buffers and
    lists the buffers' addresses and sizes in order. *)
Theorem launch_on_buffers kernel d buffers device w :
  LaunchBuffers kernel d buffers w
  = Some (Launch kernel d (map kernel_arg_of buffers) w)
  /\ LaunchAsyncBuffers body kernel d buffers device w
     = Some (LaunchAsync body kernel d (map kernel_arg_of buffers) device w)
  /\ Forall (fun frame =>
               frame_num_args frame = Z.of_nat (List.length buffers)
               /\ frame_args frame = map kernel_arg_of buffers
               /\ frame_thread_dims frame = d)
            (launch_frames d (map kernel_arg_of buffers)).
Proof.
  unfold LaunchBuffers, LaunchAsyncBuffers.
  rewrite (ConvertBuffers_is_map buffers).
  split; [reflexivity|]. split; [reflexivity|].
  unfold launch_frames. apply Forall_forall. intros frame H.
  apply in_map_iff in H as (t & <- & _). simpl.
  now rewrite length_map.
Qed.

(** X14. A synchronous launch adds only kernel calls to the trace (it never
    reaches a worker pool); it makes at most one call per coordinate of the
    grid, exactly that many when it returns success, and at least one when it
    returns a failure. *)
Theorem Launch_call_count kernel d args w :
  let called := invoked_frames kernel (launch_frames d args) (mem w) in
  let cells :=
    (Z.to_nat (dim_z d) * (Z.to_nat (dim_y d) * Z.to_nat (dim_x d)))%nat in
  trace (snd (Launch kernel d args w)) = trace w ++ map EvKernel called
  /\ (List.length called <= cells)%nat
  /\ (if ok (fst (Launch kernel d args w))
      then List.length called = cells
      else (1 <= List.length called)%nat).
Proof.
  intros called cells. subst called cells.
  rewrite Launch_invoke_in_order.
  split; [apply invoke_in_order_trace|].
  assert (L : List.length (launch_frames d args)
              = (Z.to_nat (dim_z d)
                 * (Z.to_nat (dim_y d) * Z.to_nat (dim_x d)))%nat)
    by (unfold launch_frames; now rewrite length_map, grid_order_length).
  split; [rewrite <- L; apply invoked_frames_length|].
  pose proof (invoke_in_order_outcome kernel (launch_frames d args) w) as H.
  destruct (first_failure kernel (launch_frames d args) (mem w)).
  - destruct H as (-> & before & after & _ & ->). simpl.
    rewrite length_app. simpl. lia.
  - destruct H as (-> & ->). simpl. exact L.
Qed.

(** X15. A synchronous launch returns success exactly when no call of the
    kernel, made in grid order from the launch's memory, returned a non-null
    error. *)
Theorem Launch_ok_iff_no_failure kernel d args w :
  ok (fst (Launch kernel d args w)) = true
  <-> first_failure kernel (launch_frames d args) (mem w) = None.
Proof.
  rewrite Launch_invoke_in_order.
  pose proof (invoke_in_order_outcome kernel (launch_frames d args) w) as H.
  destruct (first_failure kernel (launch_frames d args) (mem w)).
  - destruct H as (-> & _). simpl. split; discriminate.
  - destruct H as (-> & _). simpl. split; reflexivity.
Qed.

(** X16. With more than one task, the launch with a worker pool calls no
    kernel itself: it hands the whole index space to [Worker::Parallelize],
    once, with a worker count that is the smallest of the task count, the
    pool's thread count and 65535. *)
Theorem LaunchAsync_fans_out kernel d args device w :
  1 < num_tasks d ->
  let n := num_tasks d in
  let workers := Z.min (Z.min n (to_uint64 (numThreadsInPool device))) 65535 in
  let task := MkTask Mem kernel d args in
  LaunchAsync body kernel d args device w
  = Returned (FromPool (fst (body device workers n task (mem w))))
      {| mem := snd (body device workers n task (mem w));
         trace := trace w ++ [EvParallelize workers n] |}
  /\ workers <= n /\ workers <= 65535
  /\ workers <= to_uint64 (numThreadsInPool device)
  /\ (1 <= to_uint64 (numThreadsInPool device) -> 1 <= workers).
Proof.
  intros H n workers task. split.
  - unfold LaunchAsync. fold n.
    destruct (Z.gtb_spec n 0) as [_|]; [|lia].
    destruct (Z.eqb_spec n 1) as [|_]; [lia|]. simpl.
    unfold Worker_Parallelize. fold workers task.
    now destruct (body device workers n task (mem w)).
  - subst workers. lia.
Qed.

(** X17. With a worker pool, the fatal check is on the 64-bit product of the
    dimensions: the launch dies exactly when 2^64 divides [x*y*z], which a
    grid without a zero dimension can do. *)
Theorem LaunchAsync_check_on_wrapped_product kernel d args device w :
  LaunchAsync body kernel d args device w
  = CheckFailed "Number of tasks must be positive" w
  <-> (dim_x d * dim_y d * dim_z d) mod 2 ^ 64 = 0.
Proof.
  change (2 ^ 64) with uint64_modulus. rewrite <- num_tasks_mod.
  split.
  - unfold LaunchAsync.
    destruct (Z.gtb_spec (num_tasks d) 0) as [Hn|Hn]; simpl.
    + destruct (num_tasks d =? 1).
      * destruct (Launch kernel d args w). discriminate.
      * destruct (Worker_Parallelize _ _ _ _ _ _ _). discriminate.
    + intros _. pose proof (num_tasks_range d) as [? _]. lia.
  - apply LaunchAsync_no_tasks.
Qed.

(** X18. A task index below the task count is always safe to run: the
    strides are non-zero, so the task delinearizes its index, calls the
    kernel once on that coordinate, and returns success or the failure that
    names the coordinate; an index that is not below the task count fails the
    check before anything is called. *)
Theorem run_task_in_range (task : KernelParallelTask Mem) i w :
  0 <= i < num_tasks (thread_dims_ Mem task) ->
  exists t,
    Delinearize (thread_dims_ Mem task) i = Some t
    /\ let frame :=
         make_call_frame (thread_dims_ Mem task) (args_ Mem task) t in
       run_task task i w
       = Some (match fst (kernel_ Mem task frame (mem w)) with
               | None => OkStatus
               | Some _ => InternalError (task_failure_message t)
               end,
               {| mem := snd (kernel_ Mem task frame (mem w));
                  trace := trace w ++ [EvKernel frame] |})
    /\ forall j, num_tasks (thread_dims_ Mem task) <= j ->
                 run_task task j w = None.
Proof.
  intros Hi.
  destruct (Delinearize_defined (thread_dims_ Mem task) i ltac:(lia))
    as (t & Et).
  exists t. split; [exact Et|]. split.
  - unfold run_task. rewrite Et.
    destruct (Z.ltb_spec i (num_tasks (thread_dims_ Mem task))); [|lia].
    simpl. unfold invoke, make_call_frame.
    now destruct (kernel_ Mem task _ (mem w)) as [[e|] m].
  - intros j Hj. unfold run_task.
    destruct (Z.ltb_spec j (num_tasks (thread_dims_ Mem task))); [lia|].
    reflexivity.
Qed.

End LaunchExtras.

Lemma LaunchAsync_fans_out_witness :
  LaunchAsync inert_pool never_failing (ThreadDim 3 4 5) [] (MkDevice 8)
    empty_world
  = Returned (FromPool tt) {| mem := tt; trace := [EvParallelize 8 60] |}.
Proof.
  exact (proj1 (LaunchAsync_fans_out inert_pool never_failing
                  (ThreadDim 3 4 5) [] (MkDevice 8) empty_world eq_refl)).
Defined.

Lemma LaunchAsync_check_on_wrapped_product_witness :
  valid_dims (ThreadDim (2 ^ 32) (2 ^ 32) 1)
  /\ LaunchAsync inert_pool never_failing (ThreadDim (2 ^ 32) (2 ^ 32) 1) []
       (MkDevice 8) empty_world
     = CheckFailed "Number of tasks must be positive" empty_world.
Proof.
  split.
  - unfold valid_dims, is_uint64; vm_compute; intuition congruence.
  - apply (proj2 (LaunchAsync_check_on_wrapped_product inert_pool
                    never_failing (ThreadDim (2 ^ 32) (2 ^ 32) 1) []
                    (MkDevice 8) empty_world)).
    reflexivity.
Defined.

Lemma run_task_in_range_witness :
  exists t,
    Delinearize (ThreadDim 3 4 5) 37 = Some t
    /\ run_task (MkTask unit never_failing (ThreadDim 3 4 5) []) 37
         empty_world
       = Some (OkStatus,
               {| mem := tt;
                  trace := [EvKernel (make_call_frame (ThreadDim 3 4 5) []
                                        t)] |})
    /\ forall j, 60 <= j ->
                 run_task (MkTask unit never_failing (ThreadDim 3 4 5) []) j
                   empty_world = None.
Proof.
  apply (run_task_in_range
           (MkTask unit never_failing (ThreadDim 3 4 5) []) 37 empty_world).
  vm_compute. split; [discriminate | reflexivity].
Defined.
